(** * StreamingDownload: the streamed-download consumer of [src/StreamingDownload.tsx]

    A shallow embedding of [handleDownload]: the chunk loop that finds the
    metadata line [<fileName>|<totalLength>\n] in the stream, buffers the
    remaining bytes, reports progress and finally saves the assembled blob.

    Conventions of the embedding.
    - A [Uint8Array] is a [list byte].
    - A JavaScript string is the list of its UTF-16 code units ([list N]).
    - Numbers come at two levels.  The first embedding keeps integers as
      [Z] and the quotient shown by the progress bar as the exact rational
      ([Q]) that the source approximates; it serves for what does not
      depend on rounding: which events occur, their order, what is buffered
      and saved.  Module [Doubles] embeds the loop again with the numbers of
      the source, IEEE binary64 values, and serves for what is said about
      the values of [totalLength] and of the reported percentage.
    - The React state setters and the final click on the download anchor are
      recorded, in program order, as a list of [event]s.
    - The body stream is the finite list of results its reader delivers
      before it reports [done]. *)

From Stdlib Require Import List Bool NArith ZArith QArith Lia Sorted.
From Stdlib.Strings Require Import Byte Ascii String.
From Stdlib.Floats Require PrimFloat SpecFloat FloatOps.
Import ListNotations.

(** ** JavaScript strings *)

Definition jsstring := list N.

(** A string literal of the source (ASCII only). *)
Definition lit (s : string) : jsstring :=
  map N_of_ascii (list_ascii_of_string s).

Definition NL : N := 10.     (* '\n' *)
Definition PIPE : N := 124.  (* '|' *)
Definition DOT : N := 46.    (* '.' *)
Definition SLASH : N := 47.  (* '/' *)

(** [String.prototype.indexOf] for a one-unit needle: the index of the first
    occurrence, or [-1]. *)
Fixpoint indexOf (text : jsstring) (c : N) : Z :=
  match text with
  | [] => -1
  | x :: text' =>
      if N.eqb x c then 0
      else let i := indexOf text' c in
           if Z.eqb i (-1) then -1 else i + 1
  end%Z.

(** [text.slice(0, e)] for [e >= 0]. *)
Definition slice_to (text : jsstring) (e : Z) : jsstring :=
  firstn (Z.to_nat e) text.

(** [value.slice(b)] on a [Uint8Array], for [b >= 0]: the start is clamped to
    the length. *)
Definition u8_slice (value : list byte) (b : Z) : list byte :=
  skipn (Z.to_nat b) value.

(** [String.prototype.split] with a one-unit separator. *)
Fixpoint split (sep : N) (s : jsstring) : list jsstring :=
  match s with
  | [] => [[]]
  | c :: s' =>
      if N.eqb c sep then [] :: split sep s'
      else match split sep s' with
           | p :: ps => (c :: p) :: ps
           | [] => [[c]]
           end
  end.

(** ** [new TextDecoder().decode(value)]

    The UTF-8 decoder of the Encoding standard, run on one chunk without the
    [stream] option (so a truncated sequence at the end of the chunk is
    flushed as U+FFFD), followed by the removal of a leading byte order mark
    and the conversion of code points to UTF-16 code units. *)
Module TextDecoder.

Local Open Scope N_scope.

Record state := mkState {
  code_point : N;
  bytes_seen : N;
  bytes_needed : N;
  lower_boundary : N;
  upper_boundary : N
}.

Definition initial : state := mkState 0 0 0 0x80 0xBF.

Definition REPLACEMENT : N := 0xFFFD.
Definition BOM : N := 0xFEFF.

(** The handler when no continuation byte is expected. *)
Definition lead (b : N) : state * list N :=
  if b <=? 0x7F then (initial, [b])
  else if (0xC2 <=? b) && (b <=? 0xDF) then
    (mkState (N.land b 0x1F) 0 1 0x80 0xBF, [])
  else if (0xE0 <=? b) && (b <=? 0xEF) then
    (mkState (N.land b 0xF) 0 2
       (if b =? 0xE0 then 0xA0 else 0x80)
       (if b =? 0xED then 0x9F else 0xBF), [])
  else if (0xF0 <=? b) && (b <=? 0xF4) then
    (mkState (N.land b 0x7) 0 3
       (if b =? 0xF0 then 0x90 else 0x80)
       (if b =? 0xF4 then 0x8F else 0xBF), [])
  else (initial, [REPLACEMENT]).

(** One byte through the decoder.  A byte outside the expected range ends
    the pending sequence with U+FFFD and is then read again from the
    initial state. *)
Definition handler (st : state) (b : N) : state * list N :=
  if bytes_needed st =? 0 then lead b
  else if negb ((lower_boundary st <=? b) && (b <=? upper_boundary st)) then
    let '(st', out) := lead b in (st', REPLACEMENT :: out)
  else
    let cp := N.lor (N.shiftl (code_point st) 6) (N.land b 0x3F) in
    let seen := bytes_seen st + 1 in
    if seen =? bytes_needed st then (initial, [cp])
    else (mkState cp seen (bytes_needed st) 0x80 0xBF, []).

Fixpoint run (st : state) (bs : list byte) : list N :=
  match bs with
  | [] => if bytes_needed st =? 0 then [] else [REPLACEMENT]
  | b :: bs' =>
      let '(st', out) := handler st (Byte.to_N b) in
      out ++ run st' bs'
  end.

Definition strip_bom (cps : list N) : list N :=
  match cps with
  | c :: rest => if c =? BOM then rest else cps
  | [] => []
  end.

(** Code point to UTF-16 code units. *)
Definition utf16 (cp : N) : list N :=
  if cp <? 0x10000 then [cp]
  else let c := cp - 0x10000 in
       [0xD800 + N.shiftr c 10; 0xDC00 + N.land c 0x3FF].

Definition decode (value : list byte) : jsstring :=
  flat_map utf16 (strip_bom (run initial value)).

End TextDecoder.

(** The UTF-8 bytes of an ASCII literal. *)
Definition bytes (s : string) : list byte := list_byte_of_string s.


(** ** Numbers *)

(** The values the variable [totalLength] takes: [undefined] before the
    metadata line is seen, then the result of [parseInt].  [Num z] stands
    for the Number whose mathematical value before rounding is [z]; the
    double itself is [Doubles.number_of z]. *)
Inductive jsnum :=
| Undefined
| NaN
| Num (z : Z).

(** [if (totalLength)]: [undefined], [NaN] and zero are falsy. *)
Definition truthy (n : jsnum) : bool :=
  match n with
  | Num z => negb (Z.eqb z 0)
  | _ => false
  end.

(** White space and line terminators skipped by [parseInt]. *)
Definition is_white_space (c : N) : bool :=
  existsb (N.eqb c)
    [0x9; 0xA; 0xB; 0xC; 0xD; 0x20; 0xA0; 0x1680; 0x2028; 0x2029; 0x202F;
     0x205F; 0x3000; 0xFEFF]%N
  || ((0x2000 <=? c) && (c <=? 0x200A))%N.

Definition is_digit (c : N) : bool := ((48 <=? c) && (c <=? 57))%N.

Fixpoint trim_start (s : jsstring) : jsstring :=
  match s with
  | c :: s' => if is_white_space c then trim_start s' else s
  | [] => []
  end.

Fixpoint digits_prefix (s : jsstring) : jsstring :=
  match s with
  | c :: s' => if is_digit c then c :: digits_prefix s' else []
  | [] => []
  end.

Definition digits_value (ds : jsstring) : Z :=
  fold_left (fun acc d => acc * 10 + (Z.of_N d - 48))%Z ds 0%Z.

(** [parseInt(s, 10)], up to the integer the algorithm reads (its
    [mathInt] with the sign); [Doubles.parseInt] goes on to the double. *)
Definition parseInt (s : jsstring) : jsnum :=
  let s1 := trim_start s in
  let sign := match s1 with
              | c :: _ => if N.eqb c 45 then (-1)%Z else 1%Z
              | [] => 1%Z
              end in
  let s2 := match s1 with
            | c :: r => if N.eqb c 43 || N.eqb c 45 then r else s1
            | [] => s1
            end in
  match digits_prefix s2 with
  | [] => NaN
  | ds => Num (sign * digits_value ds)
  end.

(** The argument of [parseInt] is converted to a string first; the second
    element of a destructured array may be [undefined]. *)
Definition ToString (v : option jsstring) : jsstring :=
  match v with
  | Some s => s
  | None => lit "undefined"
  end.

(** [`${n}`] for a non-negative integer. *)
Fixpoint uint_units (u : Decimal.uint) : jsstring :=
  match u with
  | Decimal.Nil => []
  | Decimal.D0 u => 48%N :: uint_units u
  | Decimal.D1 u => 49%N :: uint_units u
  | Decimal.D2 u => 50%N :: uint_units u
  | Decimal.D3 u => 51%N :: uint_units u
  | Decimal.D4 u => 52%N :: uint_units u
  | Decimal.D5 u => 53%N :: uint_units u
  | Decimal.D6 u => 54%N :: uint_units u
  | Decimal.D7 u => 55%N :: uint_units u
  | Decimal.D8 u => 56%N :: uint_units u
  | Decimal.D9 u => 57%N :: uint_units u
  end.

Definition number_to_string (n : N) : jsstring := uint_units (N.to_uint n).

(** ** The output file name *)

Definition not_slash_dot (c : N) : bool :=
  negb (N.eqb c SLASH) && negb (N.eqb c DOT).

(** [[^/.]+$] matched against the whole rest of the string. *)
Definition extension_chars (s : jsstring) : bool :=
  match s with
  | [] => false
  | _ => forallb not_slash_dot s
  end.

(** [s.replace(/\.[^/.]+$/, "")]: the leftmost position where the pattern
    matches is the start of the removed part, which runs to the end; without
    a match the string is returned as it is. *)
Fixpoint strip_extension (s : jsstring) : jsstring :=
  match s with
  | [] => []
  | c :: s' =>
      if N.eqb c DOT && extension_chars s' then []
      else c :: strip_extension s'
  end.

Inductive DownloadType := video | audio.

Definition fileExtension (downloadType : DownloadType) : jsstring :=
  match downloadType with
  | audio => lit ".mp3"
  | video => lit ".mp4"
  end.

(** [a.download = currentFileName.replace(/\.[^/.]+$/, "") + fileExtension]. *)
Definition download_name (dt : DownloadType) (name : jsstring) : jsstring :=
  strip_extension name ++ fileExtension dt.

(** ** Observable effects and the component state *)

Inductive event :=
| SetIsDownloading (b : bool)
| SetProgress (p : Q)
| SetError (message : jsstring)
| SetFileName (name : jsstring)
| SaveFile (download : jsstring) (blob : list byte).

Record UI := mkUI {
  downloadType : DownloadType;
  isDownloading : bool;
  progress : Q;
  fileName : jsstring;
  error : jsstring;
  saved : list (jsstring * list byte)
}.

Definition apply_event (ui : UI) (e : event) : UI :=
  match e with
  | SetIsDownloading b =>
      mkUI (downloadType ui) b (progress ui) (fileName ui) (error ui) (saved ui)
  | SetProgress p =>
      mkUI (downloadType ui) (isDownloading ui) p (fileName ui) (error ui) (saved ui)
  | SetError m =>
      mkUI (downloadType ui) (isDownloading ui) (progress ui) (fileName ui) m (saved ui)
  | SetFileName n =>
      mkUI (downloadType ui) (isDownloading ui) (progress ui) n (error ui) (saved ui)
  | SaveFile n b =>
      mkUI (downloadType ui) (isDownloading ui) (progress ui) (fileName ui) (error ui)
        (saved ui ++ [(n, b)])
  end.

Definition apply_events (ui : UI) (es : list event) : UI :=
  fold_left apply_event es ui.

(** What the component shows of an attempt: the progress panel
    ([isDownloading && ...], with [fileName || 'Preparing download...'])
    and the alert ([error && ...]). *)
Record View := mkView {
  progress_panel : option (Q * jsstring);
  alert : option jsstring
}.

Definition render (ui : UI) : View :=
  mkView
    (if isDownloading ui
     then Some (progress ui,
                match fileName ui with
                | [] => lit "Preparing download..."
                | n => n
                end)
     else None)
    (match error ui with
     | [] => None
     | m => Some m
     end).

(** ** The read loop *)

(** The local variables of [handleDownload] that the loop updates. *)
Record Session := mkSession {
  chunks : list (list byte);
  receivedLength : Z;
  totalLength : jsnum;
  metadataReceived : bool;
  currentFileName : jsstring
}.

Definition initial_session : Session :=
  mkSession [] 0 Undefined false (lit "download").

(** [name || currentFileName]. *)
Definition or_else (name : option jsstring) (fallback : jsstring) : jsstring :=
  match name with
  | Some (c :: n) => c :: n
  | _ => fallback
  end.

(** The exact value of [(receivedLength / totalLength) * 100];
    [Doubles.percentage] is the double the source computes. *)
Definition percentage (received total : Z) : Q :=
  (inject_Z received / inject_Z total) * inject_Z 100.

(** [if (totalLength) setProgress((receivedLength / totalLength) * 100)]. *)
Definition report_progress (s : Session) : list event :=
  if truthy (totalLength s) then
    match totalLength s with
    | Num t => [SetProgress (percentage (receivedLength s) t)]
    | _ => []
    end
  else [].

(** The body of the loop for one delivered chunk [value]. *)
Definition on_chunk (s : Session) (value : list byte) : Session * list event :=
  let '(s1, evs) :=
    if negb (metadataReceived s) then
      let text := TextDecoder.decode value in
      let metadataEndIndex := indexOf text NL in
      if negb (Z.eqb metadataEndIndex (-1)) then
        let metadata := slice_to text metadataEndIndex in
        let parts := split PIPE metadata in
        let name := nth_error parts 0 in
        let size := nth_error parts 1 in
        let current := or_else name (currentFileName s) in
        (mkSession
           (chunks s ++ [u8_slice value (metadataEndIndex + 1)])
           (receivedLength s
            + (Z.of_nat (List.length value) - (metadataEndIndex + 1)))
           (parseInt (ToString size))
           true
           current,
         [SetFileName current])
      else (s, [])
    else
      (mkSession (chunks s ++ [value])
         (receivedLength s + Z.of_nat (List.length value))
         (totalLength s) (metadataReceived s) (currentFileName s),
       [])
  in
  (s1, evs ++ report_progress s1).

(** What an awaited call rejects with is kept as the message the [catch]
    block extracts from it. *)
Inductive outcome (A : Type) :=
| Throws (message : jsstring)
| Returns (a : A).
Arguments Throws {A} message.
Arguments Returns {A} a.

(** One [await reader.read()] that is not the final [done]. *)
Inductive read_result :=
| Chunk (value : list byte)
| ReadThrows (message : jsstring).

(** [while (true)] over the reads; the end of the list is [done]. *)
Fixpoint read_loop (s : Session) (reads : list read_result)
  : list event * outcome Session :=
  match reads with
  | [] => ([], Returns s)
  | ReadThrows m :: _ => ([], Throws m)
  | Chunk value :: reads' =>
      let '(s', evs) := on_chunk s value in
      let '(evs', r) := read_loop s' reads' in
      (evs ++ evs', r)
  end.

(** ** [handleDownload] *)

Record Response := mkResponse {
  status : N;
  text : outcome jsstring;            (* [await response.text()] *)
  body : option (list read_result)    (* [response.body], possibly null *)
}.

Definition ok (response : Response) : bool :=
  ((200 <=? status response) && (status response <=? 299))%N.

Definition new_Blob (parts : list (list byte)) : list byte := List.concat parts.

(** The [try] block, given what [fetch] resolved to. *)
Definition try_block (dt : DownloadType) (fetched : outcome Response)
  : list event * outcome unit :=
  match fetched with
  | Throws m => ([], Throws m)
  | Returns response =>
      if negb (ok response) then
        match text response with
        | Throws m => ([], Throws m)
        | Returns errorText =>
            ([], Throws (lit "Download failed: "
                         ++ number_to_string (status response)
                         ++ lit " " ++ errorText))
        end
      else
        match body response with
        | None => ([], Throws (lit "Response body is null"))
        | Some reads =>
            match read_loop initial_session reads with
            | (evs, Throws m) => (evs, Throws m)
            | (evs, Returns s) =>
                (evs ++ [SaveFile (download_name dt (currentFileName s))
                           (new_Blob (chunks s))],
                 Returns tt)
            end
        end
  end.

Definition reset_events : list event :=
  [SetIsDownloading true; SetProgress 0; SetError []; SetFileName []].

Definition catch_events (r : outcome unit) : list event :=
  match r with
  | Throws m => [SetError m]
  | Returns _ => []
  end.

Definition handleDownload (dt : DownloadType) (fetched : outcome Response)
  : list event :=
  let '(evs, r) := try_block dt fetched in
  reset_events ++ evs ++ catch_events r ++ [SetIsDownloading false].

(** The attempt as the component sees it: [downloadType] is read from the
    state the handler was created in. *)
Definition attempt (ui : UI) (fetched : outcome Response) : UI :=
  apply_events ui (handleDownload (downloadType ui) fetched).

(** A response with a success status whose body delivers [reads]. *)
Definition streaming (reads : list read_result) : outcome Response :=
  Returns (mkResponse 200 (Returns []) (Some reads)).

(** ** Vocabulary of the specification *)

(** The chunk holds a line-terminator byte. *)
Definition has_newline (value : list byte) : bool :=
  existsb (fun b => N.eqb (Byte.to_N b) NL) value.

(** The payload portion of a chunk: the bytes after its first terminator. *)
Fixpoint after_terminator (value : list byte) : list byte :=
  match value with
  | [] => []
  | b :: rest => if N.eqb (Byte.to_N b) NL then rest else after_terminator rest
  end.

(** The header bytes of a chunk: those before its first terminator. *)
Fixpoint before_terminator (value : list byte) : list byte :=
  match value with
  | [] => []
  | b :: rest =>
      if N.eqb (Byte.to_N b) NL then [] else b :: before_terminator rest
  end.

(** Every byte of the header is a 7-bit character. *)
Definition ascii_only (header : list byte) : bool :=
  forallb (fun b => N.leb (Byte.to_N b) 0x7F) header.

(** The metadata line of a chunk, as the loop reads it. *)
Definition metadata_index (value : list byte) : Z :=
  indexOf (TextDecoder.decode value) NL.

Definition metadata_fields (value : list byte) : list jsstring :=
  split PIPE (slice_to (TextDecoder.decode value) (metadata_index value)).

Definition metadata_name (value : list byte) (fallback : jsstring) : jsstring :=
  or_else (nth_error (metadata_fields value) 0) fallback.

Definition metadata_size (value : list byte) : jsnum :=
  parseInt (ToString (nth_error (metadata_fields value) 1)).

(** [sub] occurs in [s]. *)
Definition contains (s sub : jsstring) : Prop :=
  exists before after, s = before ++ sub ++ after.

Definition is_save (e : event) : bool :=
  match e with SaveFile _ _ => true | _ => false end.

Definition is_progress (e : event) : bool :=
  match e with SetProgress _ => true | _ => false end.

Definition is_error (e : event) : bool :=
  match e with SetError _ => true | _ => false end.

(** The percentages passed to [setProgress]. *)
Fixpoint progress_values (evs : list event) : list Q :=
  match evs with
  | [] => []
  | SetProgress p :: evs' => p :: progress_values evs'
  | _ :: evs' => progress_values evs'
  end.

(** All reads deliver a chunk. *)
Definition delivered (values : list (list byte)) : list read_result :=
  map Chunk values.

Definition total_bytes (values : list (list byte)) : Z :=
  Z.of_nat (List.length (List.concat values)).

(** The ways an attempt is aborted (the error taxonomy of the design). *)
Inductive failure : outcome Response -> jsstring -> Prop :=
| fetch_rejected m :
    failure (Throws m) m
| request_error response errorText :
    ok response = false ->
    text response = Returns errorText ->
    failure (Returns response)
      (lit "Download failed: " ++ number_to_string (status response)
       ++ lit " " ++ errorText)
| error_text_unreadable response m :
    ok response = false ->
    text response = Throws m ->
    failure (Returns response) m
| empty_body response :
    ok response = true ->
    body response = None ->
    failure (Returns response) (lit "Response body is null")
| stream_read_error response values m reads :
    ok response = true ->
    body response = Some (delivered values ++ ReadThrows m :: reads) ->
    failure (Returns response) m.

(** The two shapes of file name the extension property speaks about. *)
Definition no_dot (s : jsstring) : bool :=
  forallb (fun c => negb (N.eqb c DOT)) s.

(** The session once the metadata line of [value] has been read. *)
Definition with_metadata (s : Session) (value : list byte) : Session :=
  mkSession
    (chunks s ++ [u8_slice value (metadata_index value + 1)])
    (receivedLength s
     + (Z.of_nat (List.length value) - (metadata_index value + 1)))
    (metadata_size value)
    true
    (metadata_name value (currentFileName s)).

(** The session once [values] have been appended after the metadata. *)
Definition with_payload (s : Session) (values : list (list byte)) : Session :=
  mkSession (chunks s ++ values) (receivedLength s + total_bytes values)
    (totalLength s) (metadataReceived s) (currentFileName s).

(** The only events the loop itself produces. *)
Definition loop_event (e : event) : bool :=
  match e with
  | SetFileName _ | SetProgress _ => true
  | _ => false
  end.

(** "Progress is reported whenever the total length is known", for the
    processing of [value] from session [s]. *)
Definition progress_reported_whenever_known
  (s : Session) (value : list byte) : Prop :=
  forall t, totalLength (fst (on_chunk s value)) = Num t ->
  exists p, progress_values (snd (on_chunk s value)) = [p]
            /\ p == inject_Z 100
                    * inject_Z (receivedLength (fst (on_chunk s value)))
                    / inject_Z t.

(** "The name with its last suffix removed": everything from the last dot
    on is dropped. *)
Fixpoint remove_last_suffix (name : jsstring) : jsstring :=
  match name with
  | [] => []
  | c :: name' =>
      if N.eqb c DOT && no_dot name' then [] else c :: remove_last_suffix name'
  end.

(** Number of dots of a name: by the words of the property, a name with
    zero or one dot-suffix has at most one. *)
Definition dot_count (name : jsstring) : nat :=
  List.length (filter (N.eqb DOT) name).

(** What follows the last dot of a name, if it has a dot. *)
Fixpoint last_suffix (name : jsstring) : option jsstring :=
  match name with
  | [] => None
  | c :: name' =>
      match last_suffix name' with
      | Some ext => Some ext
      | None => if N.eqb c DOT then Some name' else None
      end
  end.

(** The suffix after the last dot counts as an extension when it is not
    empty and holds no slash. *)
Definition extension_ok (ext : jsstring) : bool :=
  match ext with
  | [] => false
  | _ => forallb (fun c => negb (N.eqb c SLASH)) ext
  end.

(** The output name as the amended property words it: the last suffix is
    removed when it is an extension, the name is kept whole otherwise, and
    the extension of the mode follows. *)
Definition expected_name (dt : DownloadType) (name : jsstring) : jsstring :=
  match last_suffix name with
  | Some ext => if extension_ok ext then remove_last_suffix name else name
  | None => name
  end
  ++ match dt with audio => lit ".mp3" | video => lit ".mp4" end.

(** "The error message holds the status code and the error body", for the
    attempt on a response with a status that is not a success. *)
Definition status_and_body_reported (ui : UI) (response : Response) : Prop :=
  ok response = false ->
  contains (error (attempt ui (Returns response)))
    (number_to_string (status response))
  /\ forall errorText,
       text response = Returns errorText ->
       contains (error (attempt ui (Returns response))) errorText.

(** ** The rest of the component *)

Section UrlInput.

(** [new URL(url)] of the platform: it returns or throws. *)
Variable new_URL : jsstring -> outcome unit.

(** [isValidUrl]: [try { new URL(url); return true } catch { return false }]. *)
Definition isValidUrl (url : jsstring) : bool :=
  match new_URL url with
  | Returns _ => true
  | Throws _ => false
  end.

(** The download button:
    [disabled={isDownloading || !url || !isValidUrl(url)}]. *)
Definition download_disabled (url : jsstring) (ui : UI) : bool :=
  isDownloading ui
  || match url with [] => true | _ => false end
  || negb (isValidUrl url).

End UrlInput.

(** ** Further vocabulary *)

(** Number of UTF-16 code units of a list of code points. *)
Definition units (cps : list N) : nat :=
  List.length (flat_map TextDecoder.utf16 cps).

(** Bytes the decoder has read without emitting anything yet. *)
Definition credit (st : TextDecoder.state) : nat :=
  if (TextDecoder.bytes_needed st =? 0)%N then 0%nat else 1%nat.

(** The counter agrees with what is buffered. *)
Definition counted (s : Session) : Prop :=
  receivedLength s = total_bytes (chunks s).

(** The byte counts after each chunk, starting from [r]. *)
Fixpoint running (r : Z) (values : list (list byte)) : list Z :=
  match values with
  | [] => []
  | v :: values' =>
      (r + Z.of_nat (List.length v))%Z
      :: running (r + Z.of_nat (List.length v)) values'
  end.

Definition is_flag (e : event) : bool :=
  match e with SetIsDownloading _ => true | _ => false end.

Definition digit_bytes (bs : list byte) : bool :=
  forallb (fun b => is_digit (Byte.to_N b)) bs.

Definition no_pipe (bs : list byte) : bool :=
  forallb (fun b => negb (N.eqb (Byte.to_N b) PIPE)) bs.

(** The bytes after the size do not go on with a digit. *)
Definition ends_number (bs : list byte) : bool :=
  match bs with
  | [] => true
  | b :: _ => negb (is_digit (Byte.to_N b))
  end.

(** The field before the first separator. *)
Fixpoint first_field (sep : N) (s : jsstring) : jsstring :=
  match s with
  | [] => []
  | c :: s' => if N.eqb c sep then [] else c :: first_field sep s'
  end.

(** ** The loop with the numbers of the source

    The variables [receivedLength] and [totalLength] and the argument of
    [setProgress] are Numbers: IEEE binary64 values.  This module embeds
    the loop (lines 44-77) once more with them.  Lengths and indices are
    integers far below 2^53, so they are computed in [Z] and converted
    without rounding; sums, the quotient and the product are the
    operations on doubles. *)
Module Doubles.

(** The Number value of an integer: the nearest double, ties to even, and
    an infinity beyond the range. *)
Definition number_of (z : Z) : PrimFloat.float :=
  FloatOps.SF2Prim
    (SpecFloat.binary_normalize FloatOps.prec FloatOps.emax z 0 false).

Definition hundred : PrimFloat.float := number_of 100.

(** [if (totalLength)]: [undefined], [NaN], [+0] and [-0] are falsy. *)
Definition truthy (t : option PrimFloat.float) : bool :=
  match t with
  | None => false
  | Some x => negb (PrimFloat.is_nan x || PrimFloat.is_zero x)
  end.

(** [parseInt(s, 10)]: no digit gives [NaN]; a value of zero keeps the
    sign; any other integer is converted to the nearest double.  (The
    language lets an engine replace digits after the twentieth by zeros
    before the conversion; the conversion taken here is the exact one.) *)
Definition parseInt (s : jsstring) : PrimFloat.float :=
  let s1 := trim_start s in
  let negative := match s1 with
                  | c :: _ => N.eqb c 45
                  | [] => false
                  end in
  let s2 := match s1 with
            | c :: r => if N.eqb c 43 || N.eqb c 45 then r else s1
            | [] => s1
            end in
  match digits_prefix s2 with
  | [] => PrimFloat.nan
  | ds =>
      let mathInt := digits_value ds in
      if Z.eqb mathInt 0
      then (if negative then PrimFloat.neg_zero else PrimFloat.zero)
      else number_of (if negative then - mathInt else mathInt)
  end.

Record Session := mkSession {
  chunks : list (list byte);
  receivedLength : PrimFloat.float;
  totalLength : option PrimFloat.float;   (* [None] is [undefined] *)
  metadataReceived : bool;
  currentFileName : jsstring
}.

Definition initial_session : Session :=
  mkSession [] PrimFloat.zero None false (lit "download").

(** The two setters the loop calls. *)
Inductive event :=
| SetFileName (name : jsstring)
| SetProgress (p : PrimFloat.float).

(** [(receivedLength / totalLength) * 100]. *)
Definition percentage (received total : PrimFloat.float) : PrimFloat.float :=
  PrimFloat.mul (PrimFloat.div received total) hundred.

Definition report_progress (s : Session) : list event :=
  if truthy (totalLength s) then
    match totalLength s with
    | Some t => [SetProgress (percentage (receivedLength s) t)]
    | None => []
    end
  else [].

Definition on_chunk (s : Session) (value : list byte) : Session * list event :=
  let '(s1, evs) :=
    if negb (metadataReceived s) then
      let text := TextDecoder.decode value in
      let metadataEndIndex := indexOf text NL in
      if negb (Z.eqb metadataEndIndex (-1)) then
        let metadata := slice_to text metadataEndIndex in
        let parts := split PIPE metadata in
        let name := nth_error parts 0 in
        let size := nth_error parts 1 in
        let current := or_else name (currentFileName s) in
        (mkSession
           (chunks s ++ [u8_slice value (metadataEndIndex + 1)])
           (PrimFloat.add (receivedLength s)
              (number_of
                 (Z.of_nat (List.length value) - (metadataEndIndex + 1))))
           (Some (parseInt (ToString size)))
           true
           current,
         [SetFileName current])
      else (s, [])
    else
      (mkSession (chunks s ++ [value])
         (PrimFloat.add (receivedLength s)
            (number_of (Z.of_nat (List.length value))))
         (totalLength s) (metadataReceived s) (currentFileName s),
       [])
  in
  (s1, evs ++ report_progress s1).

Fixpoint read_loop (s : Session) (reads : list read_result)
  : list event * outcome Session :=
  match reads with
  | [] => ([], Returns s)
  | ReadThrows m :: _ => ([], Throws m)
  | Chunk value :: reads' =>
      let '(s', evs) := on_chunk s value in
      let '(evs', r) := read_loop s' reads' in
      (evs ++ evs', r)
  end.

(** The percentages passed to [setProgress]. *)
Fixpoint progress_values (evs : list event) : list PrimFloat.float :=
  match evs with
  | [] => []
  | SetProgress p :: evs' => p :: progress_values evs'
  | SetFileName _ :: evs' => progress_values evs'
  end.

(** The size field of the header line of a chunk, as a Number. *)
Definition metadata_size (value : list byte) : PrimFloat.float :=
  parseInt (ToString (nth_error (metadata_fields value) 1)).

(** The session once the metadata line of [value] has been read. *)
Definition with_metadata (s : Session) (value : list byte) : Session :=
  mkSession
    (chunks s ++ [u8_slice value (metadata_index value + 1)])
    (PrimFloat.add (receivedLength s)
       (number_of (Z.of_nat (List.length value) - (metadata_index value + 1))))
    (Some (metadata_size value))
    true
    (metadata_name value (currentFileName s)).

(** The session once [value] has been appended after the metadata. *)
Definition with_chunk (s : Session) (value : list byte) : Session :=
  mkSession (chunks s ++ [value])
    (PrimFloat.add (receivedLength s)
       (number_of (Z.of_nat (List.length value))))
    (totalLength s) (metadataReceived s) (currentFileName s).

(** The counter after each chunk, starting from [r]. *)
Fixpoint running (r : PrimFloat.float) (values : list (list byte))
  : list PrimFloat.float :=
  match values with
  | [] => []
  | v :: values' =>
      PrimFloat.add r (number_of (Z.of_nat (List.length v)))
      :: running (PrimFloat.add r (number_of (Z.of_nat (List.length v))))
           values'
  end.

End Doubles.

(** The two embeddings hold the same buffer, flag and file name. *)
Definition same_buffer (s : Session) (d : Doubles.Session) : Prop :=
  chunks s = Doubles.chunks d
  /\ metadataReceived s = Doubles.metadataReceived d
  /\ currentFileName s = Doubles.currentFileName d.


(** The invariant of the decoder between two bytes: while a sequence is
    pending, the accepted range lies inside [0x80, 0xBF] and the code point
    under construction cannot end below 16. *)
Definition pending_ok (st : TextDecoder.state) : bool :=
  (TextDecoder.bytes_needed st =? 0)%N
  || ((0x80 <=? TextDecoder.lower_boundary st)%N
      && (TextDecoder.upper_boundary st <=? 0xBF)%N
      && ((1 <=? TextDecoder.code_point st)%N
          || (0x90 <=? TextDecoder.lower_boundary st)%N)).

Definition not_newline (c : N) : bool := negb (N.eqb c NL).

(** * Facts about the decoder *)

Module DecoderFacts.
Import TextDecoder.
Local Open Scope N_scope.

Lemma lor_shiftl6 (cp b : N) :
  N.lor (N.shiftl cp 6) (N.land b 0x3F) = cp * 64 + b mod 64.
Proof.
  change 0x3F with (N.ones 6).
  rewrite N.land_ones, N.shiftl_mul_pow2.
  change (2 ^ 6) with 64.
  rewrite <- N.lxor_lor, <- N.add_nocarry_lxor; try reflexivity.
  all: apply N.bits_inj; intro n; rewrite N.land_spec, N.bits_0.
  all: destruct (N.ltb_spec n 6) as [Hn | Hn].
  all: try (replace (cp * 64) with (cp * 2 ^ 6) by reflexivity;
            rewrite N.mul_pow2_bits_low by assumption; reflexivity).
  all: replace (b mod 64) with (b mod 2 ^ 6) by reflexivity;
       rewrite N.mod_pow2_bits_high by assumption; apply andb_false_r.
Qed.

(** A first byte leaves the decoder in a good state; what it emits is the
    byte itself when that is the terminator, and never a terminator
    otherwise. *)
Lemma lead_spec (b : byte) :
  pending_ok (fst (lead (Byte.to_N b))) = true
  /\ (if Byte.to_N b =? NL
      then snd (lead (Byte.to_N b)) = [NL]
      else forallb not_newline (snd (lead (Byte.to_N b))) = true).
Proof. destruct b; split; reflexivity. Qed.

Lemma handler_spec (st : state) (b : byte) :
  pending_ok st = true ->
  pending_ok (fst (handler st (Byte.to_N b))) = true
  /\ (if Byte.to_N b =? NL
      then In NL (snd (handler st (Byte.to_N b)))
      else forallb not_newline (snd (handler st (Byte.to_N b))) = true).
Proof.
  intro Hst. destruct (lead_spec b) as [Hl1 Hl2].
  unfold handler.
  destruct (bytes_needed st =? 0) eqn:Hneed.
  { split; [exact Hl1|].
    destruct (Byte.to_N b =? NL); [rewrite Hl2; left; reflexivity | exact Hl2]. }
  unfold pending_ok in Hst. rewrite Hneed in Hst. simpl in Hst.
  apply andb_prop in Hst as [Hst Hcp]. apply andb_prop in Hst as [Hlo Hup].
  apply N.leb_le in Hlo, Hup.
  destruct ((lower_boundary st <=? Byte.to_N b)
            && (Byte.to_N b <=? upper_boundary st)) eqn:Hrange; simpl.
  - apply andb_prop in Hrange as [H1 H2]. apply N.leb_le in H1, H2.
    rewrite lor_shiftl6.
    assert (Hmod : Byte.to_N b mod 64 = Byte.to_N b - 128).
    { symmetry. apply (N.mod_unique _ 64 2); lia. }
    assert (Hbig : 16 <= code_point st * 64 + Byte.to_N b mod 64).
    { rewrite Hmod. apply orb_prop in Hcp as [Hc | Hc];
        apply N.leb_le in Hc; lia. }
    assert (Hnl : (Byte.to_N b =? NL) = false).
    { apply N.eqb_neq. unfold NL. lia. }
    rewrite Hnl.
    destruct (bytes_seen st + 1 =? bytes_needed st); simpl.
    + split; [reflexivity|].
      unfold not_newline. rewrite andb_true_r. apply negb_true_iff.
      apply N.eqb_neq. unfold NL. lia.
    + split; [|reflexivity].
      unfold pending_ok; simpl.
      replace (1 <=? code_point st * 64 + Byte.to_N b mod 64) with true
        by (symmetry; apply N.leb_le; lia).
      rewrite Hneed. reflexivity.
  - destruct (lead (Byte.to_N b)) as [st' out]; simpl in *.
    split; [exact Hl1|].
    destruct (Byte.to_N b =? NL); [rewrite Hl2; right; left; reflexivity|].
    exact Hl2.
Qed.

Lemma run_without_newline (bs : list byte) :
  forall st, pending_ok st = true -> has_newline bs = false ->
  forallb not_newline (run st bs) = true.
Proof.
  induction bs as [|b bs IH]; intros st Hst Hnl; simpl.
  - destruct (bytes_needed st =? 0); reflexivity.
  - simpl in Hnl. apply orb_false_elim in Hnl as [Hb Hbs].
    destruct (handler_spec st b Hst) as [H1 H2]. rewrite Hb in H2.
    destruct (handler st (Byte.to_N b)) as [st' out]; simpl in *.
    rewrite forallb_app, H2. simpl. apply IH; assumption.
Qed.

Lemma run_with_newline (bs : list byte) :
  forall st, pending_ok st = true -> has_newline bs = true ->
  In NL (run st bs).
Proof.
  induction bs as [|b bs IH]; intros st Hst Hnl; simpl in *.
  - discriminate.
  - destruct (handler_spec st b Hst) as [H1 H2].
    destruct (handler st (Byte.to_N b)) as [st' out]; simpl in *.
    apply in_or_app.
    destruct (Byte.to_N b =? NL); simpl in Hnl.
    + left; exact H2.
    + right; apply IH; assumption.
Qed.

Lemma utf16_newline (cp : N) : In NL (utf16 cp) <-> cp = NL.
Proof.
  unfold utf16, NL. destruct (N.ltb_spec cp 0x10000); cbn [In].
  - split; [intros [H0 | []]; exact H0 | intro; left; assumption].
  - split; [intros [H0 | [H0 | []]]; lia | intro; lia].
Qed.

Lemma strip_bom_newline (cps : list N) : In NL (strip_bom cps) <-> In NL cps.
Proof.
  destruct cps as [|c cps]; simpl; [tauto|].
  destruct (N.eqb_spec c BOM) as [-> | Hc]; simpl; [|tauto].
  split; [tauto | intros [H0 | H0]; [discriminate H0 | exact H0]].
Qed.

(** The decoded text holds a line feed exactly when the chunk holds the
    byte 0x0A. *)
Lemma decode_newline (value : list byte) :
  In NL (decode value) <-> has_newline value = true.
Proof.
  unfold decode. rewrite in_flat_map. split.
  - intros [cp [Hin Hcp]]. apply (proj1 (utf16_newline cp)) in Hcp. subst cp.
    apply (proj1 (strip_bom_newline _)) in Hin.
    destruct (has_newline value) eqn:Hnl; [reflexivity|].
    pose proof (run_without_newline value initial eq_refl Hnl) as Hall.
    rewrite forallb_forall in Hall. apply Hall in Hin. discriminate Hin.
  - intro Hnl. exists NL. split; [|apply utf16_newline; reflexivity].
    apply (proj2 (strip_bom_newline _)). apply run_with_newline; [reflexivity | exact Hnl].
Qed.

End DecoderFacts.

(** * Facts about strings and byte arrays *)

Lemma indexOf_range (s : jsstring) (c : N) :
  (indexOf s c = -1 \/ 0 <= indexOf s c < Z.of_nat (List.length s))%Z.
Proof.
  induction s as [|x s IH]; simpl; [left; reflexivity|].
  destruct (N.eqb x c); [right; lia|].
  destruct (Z.eqb_spec (indexOf s c) (-1)); [left; reflexivity | right; lia].
Qed.

Lemma indexOf_absent (s : jsstring) (c : N) :
  indexOf s c = (-1)%Z <-> ~ In c s.
Proof.
  induction s as [|x s IH]; simpl; [tauto|].
  destruct (N.eqb_spec x c) as [-> | Hx].
  - split; [discriminate | intro H; exfalso; apply H; left; reflexivity].
  - destruct (Z.eqb_spec (indexOf s c) (-1)) as [He | He].
    + split; [|reflexivity]. intros _ [H | H]; [exact (Hx H)|].
      apply (proj1 IH He H).
    + split.
      * pose proof (indexOf_range s c). lia.
      * intro H. exfalso. apply He, IH. tauto.
Qed.

Lemma indexOf_first (pre post : jsstring) (c : N) :
  ~ In c pre -> indexOf (pre ++ c :: post) c = Z.of_nat (List.length pre).
Proof.
  induction pre as [|x pre IH]; intro Hpre; simpl.
  - rewrite N.eqb_refl. reflexivity.
  - destruct (N.eqb_spec x c) as [-> | Hx];
      [exfalso; apply Hpre; left; reflexivity|].
    rewrite IH by (intro H; apply Hpre; right; exact H).
    destruct (Z.eqb_spec (Z.of_nat (List.length pre)) (-1)); lia.
Qed.

Lemma terminator_split (value : list byte) :
  has_newline value = true ->
  exists nl, Byte.to_N nl = NL
             /\ value = before_terminator value ++ nl :: after_terminator value.
Proof.
  induction value as [|b value IH]; simpl; [discriminate|].
  destruct (N.eqb_spec (Byte.to_N b) NL) as [Hb | Hb]; simpl.
  - intros _. exists b. split; [exact Hb | reflexivity].
  - intro H. destruct (IH H) as [nl [Hnl Heq]].
    exists nl. split; [exact Hnl|]. f_equal. exact Heq.
Qed.

Lemma before_terminator_clean (value : list byte) :
  ~ In NL (map Byte.to_N (before_terminator value)).
Proof.
  induction value as [|b value IH]; simpl; [tauto|].
  destruct (N.eqb_spec (Byte.to_N b) NL) as [Hb | Hb]; simpl; [tauto|].
  intros [H | H]; [exact (Hb H) | exact (IH H)].
Qed.

Module AsciiHeader.
Import TextDecoder.

Lemma run_prefix (header rest : list byte) :
  ascii_only header = true ->
  run initial (header ++ rest) = map Byte.to_N header ++ run initial rest.
Proof.
  induction header as [|b header IH]; simpl; [reflexivity|].
  intro H. apply andb_prop in H as [Hb Hh].
  unfold handler, lead. simpl. rewrite Hb. simpl. f_equal. apply IH, Hh.
Qed.

Lemma utf16_ascii (header : list byte) :
  ascii_only header = true ->
  flat_map utf16 (map Byte.to_N header) = map Byte.to_N header.
Proof.
  induction header as [|b header IH]; simpl; [reflexivity|].
  intro H. apply andb_prop in H as [Hb Hh]. rewrite (IH Hh).
  unfold utf16. apply N.leb_le in Hb.
  replace (Byte.to_N b <? 0x10000)%N with true
    by (symmetry; apply N.ltb_lt; lia).
  reflexivity.
Qed.

(** A chunk that starts with a 7-bit header line decodes to that line,
    the line feed, and the decoding of what follows. *)
Lemma decode_header (header payload : list byte) (nl : byte) :
  ascii_only header = true -> Byte.to_N nl = NL ->
  decode (header ++ nl :: payload)
  = map Byte.to_N header ++ NL :: flat_map utf16 (run initial payload).
Proof.
  intros Hh Hnl. unfold decode.
  rewrite run_prefix by exact Hh.
  assert (Hrun : run initial (nl :: payload) = NL :: run initial payload).
  { simpl. unfold handler, lead. simpl. rewrite Hnl. reflexivity. }
  rewrite Hrun.
  assert (Hbom : strip_bom (map Byte.to_N header ++ NL :: run initial payload)
                 = map Byte.to_N header ++ NL :: run initial payload).
  { destruct header as [|b header]; [reflexivity|]. simpl in *.
    apply andb_prop in Hh as [Hb _]. apply N.leb_le in Hb.
    replace (Byte.to_N b =? BOM)%N with false; [reflexivity|].
    symmetry. apply N.eqb_neq. unfold BOM. lia. }
  rewrite Hbom, flat_map_app, utf16_ascii by exact Hh.
  reflexivity.
Qed.

(** With a 7-bit header the indices of the text and of the bytes agree. *)
Lemma metadata_of_chunk (value : list byte) :
  has_newline value = true ->
  ascii_only (before_terminator value) = true ->
  metadata_index value = Z.of_nat (List.length (before_terminator value))
  /\ slice_to (decode value) (metadata_index value)
     = map Byte.to_N (before_terminator value)
  /\ u8_slice value (metadata_index value + 1) = after_terminator value
  /\ (Z.of_nat (List.length value) - (metadata_index value + 1))%Z
     = Z.of_nat (List.length (after_terminator value)).
Proof.
  intros Hnl Hascii.
  destruct (terminator_split value Hnl) as [nl [Hnlb Hsplit]].
  pose proof (before_terminator_clean value) as Hclean.
  set (header := before_terminator value) in *.
  set (payload := after_terminator value) in *.
  assert (Hidx : metadata_index value = Z.of_nat (List.length header)).
  { unfold metadata_index. rewrite Hsplit, decode_header by assumption.
    rewrite indexOf_first by exact Hclean. rewrite length_map. reflexivity. }
  split; [exact Hidx|]. rewrite Hidx. split; [|split].
  - unfold slice_to. rewrite Hsplit, decode_header by assumption.
    rewrite Nat2Z.id, <- (length_map Byte.to_N header).
    rewrite firstn_app, firstn_all, Nat.sub_diag. simpl.
    apply app_nil_r.
  - unfold u8_slice. rewrite Hsplit at 1.
    replace (Z.to_nat (Z.of_nat (List.length header) + 1))
      with (List.length header + 1)%nat by lia.
    rewrite skipn_app, skipn_all2 by lia.
    replace (List.length header + 1 - List.length header)%nat with 1%nat by lia.
    reflexivity.
  - rewrite Hsplit at 1. rewrite length_app. simpl. lia.
Qed.

End AsciiHeader.

(** * The loop body, case by case *)

Lemma on_chunk_skip (s : Session) (value : list byte) :
  metadataReceived s = false -> has_newline value = false ->
  on_chunk s value = (s, report_progress s).
Proof.
  intros Hm Hnl. unfold on_chunk. rewrite Hm. simpl.
  assert (Hidx : indexOf (TextDecoder.decode value) NL = (-1)%Z).
  { apply indexOf_absent. intro Hin.
    apply DecoderFacts.decode_newline in Hin. congruence. }
  rewrite Hidx. reflexivity.
Qed.

Lemma on_chunk_metadata (s : Session) (value : list byte) :
  metadataReceived s = false -> has_newline value = true ->
  on_chunk s value
  = (with_metadata s value,
     SetFileName (metadata_name value (currentFileName s))
     :: report_progress (with_metadata s value)).
Proof.
  intros Hm Hnl. unfold on_chunk. rewrite Hm. simpl.
  assert (Hidx : Z.eqb (indexOf (TextDecoder.decode value) NL) (-1) = false).
  { apply Z.eqb_neq. intro H. apply indexOf_absent in H. apply H.
    apply DecoderFacts.decode_newline. exact Hnl. }
  rewrite Hidx. reflexivity.
Qed.

Lemma on_chunk_payload (s : Session) (value : list byte) :
  metadataReceived s = true ->
  on_chunk s value
  = (with_payload s [value], report_progress (with_payload s [value])).
Proof.
  intro Hm. unfold on_chunk. rewrite Hm. simpl.
  assert (Heq : mkSession (chunks s ++ [value])
                  (receivedLength s + Z.of_nat (List.length value))
                  (totalLength s) true (currentFileName s)
                = with_payload s [value]).
  { unfold with_payload, total_bytes. simpl. rewrite app_nil_r, Hm.
    reflexivity. }
  rewrite Heq. reflexivity.
Qed.

Lemma report_progress_loop_event (s : Session) :
  forallb loop_event (report_progress s) = true.
Proof.
  unfold report_progress.
  destruct (truthy (totalLength s)); [|reflexivity].
  destruct (totalLength s); reflexivity.
Qed.

Lemma on_chunk_loop_event (s : Session) (value : list byte) :
  forallb loop_event (snd (on_chunk s value)) = true.
Proof.
  destruct (metadataReceived s) eqn:Hm.
  - rewrite on_chunk_payload by exact Hm. apply report_progress_loop_event.
  - destruct (has_newline value) eqn:Hnl.
    + rewrite on_chunk_metadata by assumption. simpl.
      apply report_progress_loop_event.
    + rewrite on_chunk_skip by assumption. apply report_progress_loop_event.
Qed.

(** * The loop *)

Lemma read_loop_loop_event (reads : list read_result) :
  forall s, forallb loop_event (fst (read_loop s reads)) = true.
Proof.
  induction reads as [|[value | m] reads IH]; intro s; simpl;
    try reflexivity.
  pose proof (on_chunk_loop_event s value) as Hc.
  destruct (on_chunk s value) as [s' evs]. specialize (IH s').
  destruct (read_loop s' reads) as [evs' r]. simpl in *.
  rewrite forallb_app, Hc, IH. reflexivity.
Qed.

Lemma with_payload_cons (s : Session) (value : list byte)
      (values : list (list byte)) :
  with_payload (with_payload s [value]) values = with_payload s (value :: values).
Proof.
  unfold with_payload, total_bytes. simpl.
  rewrite <- app_assoc, app_nil_r, length_app. simpl. f_equal. lia.
Qed.

(** Once the metadata has been read every chunk is appended whole. *)
Lemma read_loop_payload (values : list (list byte)) :
  forall s, metadataReceived s = true ->
  snd (read_loop s (delivered values)) = Returns (with_payload s values)
  /\ (truthy (totalLength s) = false ->
      fst (read_loop s (delivered values)) = []).
Proof.
  induction values as [|value values IH]; intros s Hm; simpl.
  - split; [|reflexivity]. unfold with_payload, total_bytes. simpl.
    rewrite app_nil_r, Z.add_0_r. destruct s; reflexivity.
  - rewrite on_chunk_payload by exact Hm.
    destruct (IH (with_payload s [value]) Hm) as [IH1 IH2].
    destruct (read_loop (with_payload s [value]) (delivered values))
      as [evs' r]. simpl in *.
    split; [rewrite IH1, with_payload_cons; reflexivity|].
    intro Ht. rewrite (IH2 Ht). unfold report_progress. simpl.
    rewrite Ht. reflexivity.
Qed.

(** A chunk without terminator that arrives before the metadata leaves no
    trace in the loop. *)
Lemma read_loop_skip (s : Session) (value : list byte)
      (reads : list read_result) :
  metadataReceived s = false -> truthy (totalLength s) = false ->
  has_newline value = false ->
  read_loop s (Chunk value :: reads) = read_loop s reads.
Proof.
  intros Hm Ht Hnl. simpl. rewrite on_chunk_skip by assumption.
  unfold report_progress. rewrite Ht.
  destruct (read_loop s reads). reflexivity.
Qed.

Lemma read_loop_skip_all (pre : list (list byte)) (s : Session)
      (reads : list read_result) :
  metadataReceived s = false -> truthy (totalLength s) = false ->
  forallb (fun v => negb (has_newline v)) pre = true ->
  read_loop s (delivered pre ++ reads) = read_loop s reads.
Proof.
  intros Hm Ht. induction pre as [|v pre IH]; intro Hpre; [reflexivity|].
  simpl in Hpre. apply andb_prop in Hpre as [Hv Hpre].
  apply negb_true_iff in Hv.
  change (delivered (v :: pre) ++ reads)
    with (Chunk v :: (delivered pre ++ reads)).
  rewrite read_loop_skip by assumption. apply IH, Hpre.
Qed.

(** The loop from the metadata chunk on. *)
Lemma read_loop_from_metadata (s : Session) (header : list byte)
      (rest : list (list byte)) :
  metadataReceived s = false -> has_newline header = true ->
  snd (read_loop s (delivered (header :: rest)))
  = Returns (with_payload (with_metadata s header) rest)
  /\ (metadata_size header = NaN ->
      fst (read_loop s (delivered (header :: rest)))
      = [SetFileName (metadata_name header (currentFileName s))]).
Proof.
  intros Hm Hnl. simpl. rewrite on_chunk_metadata by assumption.
  destruct (read_loop_payload rest (with_metadata s header) eq_refl)
    as [H1 H2].
  destruct (read_loop (with_metadata s header) (delivered rest)) as [evs r].
  simpl in *. split; [exact H1|].
  intro Hsize. unfold report_progress. simpl. rewrite Hsize in *. simpl.
  rewrite (H2 eq_refl). reflexivity.
Qed.

(** * Attempts that run to completion *)

Lemma loop_events_save_nothing (evs : list event) :
  forallb loop_event evs = true -> filter is_save evs = [].
Proof.
  induction evs as [|e evs IH]; simpl; [reflexivity|].
  intro H. apply andb_prop in H as [He Hevs].
  destruct e; try discriminate He; simpl; apply IH, Hevs.
Qed.

Lemma try_block_streaming (dt : DownloadType) (reads : list read_result) :
  try_block dt (streaming reads)
  = match read_loop initial_session reads with
    | (evs, Throws m) => (evs, Throws m)
    | (evs, Returns s) =>
        (evs ++ [SaveFile (download_name dt (currentFileName s))
                   (new_Blob (chunks s))],
         Returns tt)
    end.
Proof. reflexivity. Qed.

(** A stream whose reads all succeed and whose first chunk with a terminator
    is [header]: the attempt ends with the click on the download anchor. *)
Lemma attempt_completes (dt : DownloadType) (pre : list (list byte))
      (header : list byte) (rest : list (list byte)) :
  forallb (fun v => negb (has_newline v)) pre = true ->
  has_newline header = true ->
  exists evs,
    forallb loop_event evs = true
    /\ (metadata_size header = NaN ->
        evs = [SetFileName (metadata_name header (lit "download"))])
    /\ handleDownload dt (streaming (delivered (pre ++ header :: rest)))
       = reset_events ++ evs
         ++ [SaveFile
               (download_name dt (metadata_name header (lit "download")))
               (new_Blob (u8_slice header (metadata_index header + 1) :: rest));
             SetIsDownloading false].
Proof.
  intros Hpre Hnl.
  destruct (read_loop_from_metadata initial_session header rest eq_refl Hnl)
    as [Hres Hevs].
  pose proof (read_loop_loop_event (delivered (header :: rest)) initial_session)
    as Hloop.
  assert (Hreads : read_loop initial_session (delivered (pre ++ header :: rest))
                   = read_loop initial_session (delivered (header :: rest))).
  { unfold delivered. rewrite map_app.
    apply read_loop_skip_all; [reflexivity | reflexivity | exact Hpre]. }
  unfold handleDownload. rewrite try_block_streaming, Hreads.
  destruct (read_loop initial_session (delivered (header :: rest)))
    as [evs r]. cbn [fst snd] in *. subst r.
  exists evs. split; [exact Hloop|]. split; [exact Hevs|].
  cbn [catch_events app]. rewrite <- app_assoc. reflexivity.
Qed.

(** With a 7-bit header line the blob is the payload of the header chunk
    followed by the later chunks, and the counter is its length. *)
Lemma ascii_header_blob (dt : DownloadType) (pre : list (list byte))
      (header : list byte) (rest : list (list byte)) :
  forallb (fun v => negb (has_newline v)) pre = true ->
  has_newline header = true ->
  ascii_only (before_terminator header) = true ->
  filter is_save
    (handleDownload dt (streaming (delivered (pre ++ header :: rest))))
  = [SaveFile (download_name dt (metadata_name header (lit "download")))
       (after_terminator header ++ List.concat rest)].
Proof.
  intros Hpre Hnl Hascii.
  destruct (attempt_completes dt pre header rest Hpre Hnl)
    as [evs [Hloop [_ Heq]]].
  rewrite Heq. unfold reset_events. simpl.
  rewrite filter_app, (loop_events_save_nothing evs Hloop). simpl.
  destruct (AsciiHeader.metadata_of_chunk header Hnl Hascii)
    as [_ [_ [Hslice _]]].
  rewrite Hslice. reflexivity.
Qed.

Lemma ascii_header_received (s : Session) (header : list byte)
      (rest : list (list byte)) :
  has_newline header = true ->
  ascii_only (before_terminator header) = true ->
  receivedLength (with_payload (with_metadata s header) rest)
  = (receivedLength s
     + Z.of_nat (List.length (after_terminator header ++ List.concat rest)))%Z.
Proof.
  intros Hnl Hascii.
  destruct (AsciiHeader.metadata_of_chunk header Hnl Hascii)
    as [_ [_ [_ Hlen]]].
  unfold with_payload, with_metadata, total_bytes. simpl.
  rewrite Hlen, length_app. lia.
Qed.

(** With a 7-bit header line (or none in the chunk) a chunk never lowers
    the counter. *)
Lemma received_never_decreases (s : Session) (value : list byte) :
  ascii_only (before_terminator value) = true ->
  (receivedLength s <= receivedLength (fst (on_chunk s value)))%Z.
Proof.
  intro Hascii. destruct (metadataReceived s) eqn:Hm.
  - rewrite on_chunk_payload by exact Hm.
    unfold with_payload, total_bytes. simpl. lia.
  - destruct (has_newline value) eqn:Hnl.
    + rewrite on_chunk_metadata by assumption.
      destruct (AsciiHeader.metadata_of_chunk value Hnl Hascii)
        as [_ [_ [_ Hlen]]].
      unfold with_metadata. simpl. rewrite Hlen. lia.
    + rewrite on_chunk_skip by assumption. simpl. lia.
Qed.

(** * The claims *)

(** C1 (ordering of the assembled blob).  The claim: when the first chunk
    holds the terminator, the blob is the bytes after the terminator of that
    chunk followed by every later chunk, the header bytes left out.  The
    loop looks the terminator up in the decoded text and cuts the byte array
    at that index.  For the header line [é|10] the letter takes two bytes
    and one text position, so the cut falls one byte early and the blob
    starts with the terminator byte itself.  ([ascii_header_blob] is the
    claim for header lines of 7-bit characters.) *)
Theorem accented_header_reaches_the_blob :
  let first := [xc3; xa9] ++ bytes "|10" ++ [x0a] ++ bytes "hello" in
  filter is_save
    (handleDownload video (streaming (delivered [first; bytes "world"])))
  = [SaveFile (233%N :: lit ".mp4") (x0a :: bytes "helloworld")]
  /\ after_terminator first ++ bytes "world" = bytes "helloworld".
Proof. split; vm_compute; reflexivity. Qed.

(** C2, as stated, fails when the header announces a length of zero: the
    length is known, but [if (totalLength)] is false for [0] and nothing is
    reported. *)
Lemma zero_length_reports_nothing :
  ~ progress_reported_whenever_known initial_session
      (bytes "f|0" ++ [x0a] ++ bytes "abc").
Proof.
  intro H. destruct (H 0%Z eq_refl) as [p [Hp _]].
  vm_compute in Hp. discriminate Hp.
Qed.

(** C3 (malformed metadata).  When [parseInt] finds no number in the size
    field of the header line, the attempt is not an error: the total length
    is [NaN] to the end, the loop reports no percentage at all (the only
    event it produces is the file name), every chunk is buffered and the
    file is saved under the derived name. *)
Theorem unparseable_size_is_not_an_error
        (dt : DownloadType) (pre : list (list byte)) (header : list byte)
        (rest : list (list byte)) :
  forallb (fun v => negb (has_newline v)) pre = true ->
  has_newline header = true ->
  metadata_size header = NaN ->
  let name := metadata_name header (lit "download") in
  handleDownload dt (streaming (delivered (pre ++ header :: rest)))
  = reset_events
    ++ [SetFileName name;
        SaveFile (download_name dt name)
          (new_Blob (u8_slice header (metadata_index header + 1) :: rest));
        SetIsDownloading false]
  /\ exists s,
       snd (read_loop initial_session (delivered (pre ++ header :: rest)))
       = Returns s
       /\ totalLength s = NaN
       /\ progress_values
            (fst (read_loop initial_session (delivered (pre ++ header :: rest))))
          = [].
Proof.
  intros Hpre Hnl Hsize name.
  destruct (attempt_completes dt pre header rest Hpre Hnl)
    as [evs [_ [Hevs Heq]]].
  split; [rewrite Heq, (Hevs Hsize); reflexivity|].
  assert (Hreads : read_loop initial_session (delivered (pre ++ header :: rest))
                   = read_loop initial_session (delivered (header :: rest))).
  { unfold delivered. rewrite map_app.
    apply read_loop_skip_all; [reflexivity | reflexivity | exact Hpre]. }
  rewrite Hreads.
  destruct (read_loop_from_metadata initial_session header rest eq_refl Hnl)
    as [Hres Hloop].
  exists (with_payload (with_metadata initial_session header) rest).
  split; [exact Hres|]. split; [exact Hsize|].
  rewrite (Hloop Hsize). reflexivity.
Qed.

Lemma unparseable_size_is_not_an_error_witness :
  let header := bytes "song.ogg|abc" ++ [x0a] ++ bytes "hello" in
  metadata_size header = NaN
  /\ handleDownload audio (streaming (delivered [header; bytes "world"]))
     = reset_events
       ++ [SetFileName (lit "song.ogg");
           SaveFile (lit "song.mp3") (bytes "helloworld");
           SetIsDownloading false].
Proof.
  split; [reflexivity|].
  exact (proj1 (unparseable_size_is_not_an_error audio []
                  (bytes "song.ogg|abc" ++ [x0a] ++ bytes "hello")
                  [bytes "world"] eq_refl eq_refl eq_refl)).
Defined.

(** * Failed attempts *)

Lemma apply_loop_events (evs : list event) :
  forall ui, forallb loop_event evs = true ->
  saved (apply_events ui evs) = saved ui
  /\ error (apply_events ui evs) = error ui
  /\ isDownloading (apply_events ui evs) = isDownloading ui.
Proof.
  unfold apply_events.
  induction evs as [|e evs IH]; intros ui H; simpl; [auto|].
  simpl in H. apply andb_prop in H as [He Hevs].
  destruct (IH (apply_event ui e) Hevs) as [H1 [H2 H3]].
  rewrite H1, H2, H3. destruct e; try discriminate He; auto.
Qed.

Lemma read_loop_throws (values : list (list byte)) (m : jsstring)
      (reads : list read_result) :
  forall s, snd (read_loop s (delivered values ++ ReadThrows m :: reads))
            = Throws m.
Proof.
  induction values as [|v values IH]; intro s; simpl; [reflexivity|].
  destruct (on_chunk s v) as [s' evs]. specialize (IH s').
  destruct (read_loop s' (delivered values ++ ReadThrows m :: reads)).
  exact IH.
Qed.

Lemma read_loop_thrown (reads : list read_result) (m : jsstring) :
  forall s, snd (read_loop s reads) = Throws m ->
  exists values rest, reads = delivered values ++ ReadThrows m :: rest.
Proof.
  induction reads as [|[v | m'] reads IH]; intros s H; simpl in H.
  - discriminate H.
  - destruct (on_chunk s v) as [s' evs]. specialize (IH s').
    destruct (read_loop s' reads) as [evs' r]. simpl in *.
    destruct (IH H) as [values [rest Heq]].
    exists (v :: values), rest. rewrite Heq. reflexivity.
  - injection H as ->. exists [], reads. reflexivity.
Qed.

(** Every cause of failure makes the [try] block throw its message, having
    produced loop events only. *)
Lemma failure_throws (dt : DownloadType) (fetched : outcome Response)
      (message : jsstring) :
  failure fetched message ->
  snd (try_block dt fetched) = Throws message
  /\ forallb loop_event (fst (try_block dt fetched)) = true.
Proof.
  intro H. destruct H as [m | response errorText Hok Htext
                          | response m Hok Htext | response Hok Hbody
                          | response values m reads Hok Hbody];
    unfold try_block; try rewrite Hok; simpl;
    try rewrite Htext; try rewrite Hbody; try (split; reflexivity).
  pose proof (read_loop_throws values m reads initial_session) as Hthrow.
  pose proof (read_loop_loop_event
                (delivered values ++ ReadThrows m :: reads) initial_session)
    as Hloop.
  destruct (read_loop initial_session
              (delivered values ++ ReadThrows m :: reads)) as [evs r].
  simpl in *. subst r. split; [reflexivity | exact Hloop].
Qed.

(** Conversely the [try] block throws for these causes only. *)
Lemma thrown_is_failure (dt : DownloadType) (fetched : outcome Response)
      (message : jsstring) :
  snd (try_block dt fetched) = Throws message -> failure fetched message.
Proof.
  destruct fetched as [m | response]; simpl.
  - intro H. injection H as ->. constructor.
  - destruct (ok response) eqn:Hok; simpl.
    + destruct (body response) as [reads|] eqn:Hbody; simpl.
      * pose proof (read_loop_thrown reads message initial_session) as Hinv.
        destruct (read_loop initial_session reads) as [evs [m | s]];
          simpl in *; [|discriminate].
        intro H. injection H as ->.
        destruct (Hinv eq_refl) as [values [rest Heq]]. subst reads.
        eapply stream_read_error; eassumption.
      * intro H. injection H as <-. apply empty_body; assumption.
    + destruct (text response) as [m | errorText] eqn:Htext; simpl;
        intro H; injection H as <-.
      * apply error_text_unreadable; assumption.
      * apply request_error; assumption.
Qed.

Lemma failed_attempt (ui : UI) (fetched : outcome Response)
      (message : jsstring) :
  failure fetched message ->
  exists evs,
    forallb loop_event evs = true
    /\ handleDownload (downloadType ui) fetched
       = reset_events ++ evs ++ [SetError message; SetIsDownloading false]
    /\ saved (attempt ui fetched) = saved ui
    /\ error (attempt ui fetched) = message
    /\ isDownloading (attempt ui fetched) = false.
Proof.
  intro Hf.
  destruct (failure_throws (downloadType ui) fetched message Hf)
    as [Hthrow Hloop].
  assert (Heq : handleDownload (downloadType ui) fetched
                = reset_events ++ fst (try_block (downloadType ui) fetched)
                  ++ [SetError message; SetIsDownloading false]).
  { unfold handleDownload.
    destruct (try_block (downloadType ui) fetched) as [evs r].
    simpl in *. subst r. reflexivity. }
  exists (fst (try_block (downloadType ui) fetched)).
  split; [exact Hloop|]. split; [exact Heq|].
  unfold attempt. rewrite Heq. unfold apply_events.
  rewrite !fold_left_app.
  destruct (apply_loop_events (fst (try_block (downloadType ui) fetched))
              (fold_left apply_event reset_events ui) Hloop)
    as [H1 [H2 H3]].
  unfold apply_events in *. simpl in *. rewrite H1. auto.
Qed.

Lemma contains_middle (a b c : jsstring) : contains (a ++ b ++ c) b.
Proof. exists a, c. reflexivity. Qed.

(** C4 (request error).  A response whose status is outside 200..299 and
    whose body text is [errorText] ends the attempt in the failed state: the
    error message is set, it holds the decimal status code and the body
    text, and nothing is saved. *)
Theorem request_error_carries_status_and_body
        (ui : UI) (response : Response) (errorText : jsstring) :
  ok response = false ->
  text response = Returns errorText ->
  exists message,
    handleDownload (downloadType ui) (Returns response)
    = reset_events ++ [SetError message; SetIsDownloading false]
    /\ contains message (number_to_string (status response))
    /\ contains message errorText
    /\ error (attempt ui (Returns response)) = message
    /\ isDownloading (attempt ui (Returns response)) = false
    /\ saved (attempt ui (Returns response)) = saved ui.
Proof.
  intros Hok Htext.
  exists (lit "Download failed: " ++ number_to_string (status response)
          ++ lit " " ++ errorText).
  split; [|split; [|split]].
  - unfold handleDownload, try_block. rewrite Hok, Htext. reflexivity.
  - apply contains_middle.
  - exists (lit "Download failed: " ++ number_to_string (status response)
            ++ lit " "), [].
    rewrite app_nil_r, <- !app_assoc. reflexivity.
  - destruct (failed_attempt ui (Returns response) _
                (request_error response errorText Hok Htext))
      as [evs [_ [_ [H1 [H2 H3]]]]].
    auto.
Qed.

Lemma request_error_carries_status_and_body_witness :
  let ui := mkUI video false 0 [] [] [] in
  let response := mkResponse 404 (Returns (lit "not found")) None in
  ok response = false
  /\ exists message,
       handleDownload video (Returns response)
       = reset_events ++ [SetError message; SetIsDownloading false]
       /\ contains message (lit "404")
       /\ contains message (lit "not found")
       /\ error (attempt ui (Returns response)) = message
       /\ isDownloading (attempt ui (Returns response)) = false
       /\ saved (attempt ui (Returns response)) = [].
Proof.
  split; [reflexivity|].
  exact (request_error_carries_status_and_body
           (mkUI video false 0 [] [] [])
           (mkResponse 404 (Returns (lit "not found")) None)
           (lit "not found") eq_refl eq_refl).
Defined.

(** C5 (no partial file).  Whatever aborts the attempt - a status outside
    200..299, a null response body, a read of the stream that throws (or a
    rejected fetch) - the chunks buffered so far are never handed to the
    download anchor: the attempt has no save event, the list of saved files
    is the one from before the attempt, the only error set after the reset
    is the message of the failure, and what the component then shows is
    that message alone, the progress panel being hidden. *)
Theorem failed_attempt_saves_nothing
        (ui : UI) (fetched : outcome Response) (message : jsstring) :
  failure fetched message ->
  filter is_save (handleDownload (downloadType ui) fetched) = []
  /\ filter is_error (handleDownload (downloadType ui) fetched)
     = [SetError []; SetError message]
  /\ saved (attempt ui fetched) = saved ui
  /\ render (attempt ui fetched)
     = mkView None (match message with [] => None | m => Some m end).
Proof.
  intro Hf.
  destruct (failed_attempt ui fetched message Hf)
    as [evs [Hloop [Heq [H1 [H2 H3]]]]].
  unfold render. rewrite H2, H3.
  rewrite Heq, !filter_app.
  rewrite (loop_events_save_nothing evs Hloop).
  assert (Herr : filter is_error evs = []).
  { clear -Hloop. induction evs as [|e evs IH]; [reflexivity|].
    simpl in Hloop. apply andb_prop in Hloop as [He Hevs].
    destruct e; try discriminate He; simpl; apply IH, Hevs. }
  rewrite Herr. simpl. repeat split; try assumption.
  destruct message; reflexivity.
Qed.

(** The third read throws after two chunks have been buffered. *)
Lemma failed_attempt_saves_nothing_witness :
  let ui := mkUI audio false 0 [] [] [] in
  let reads := [Chunk (bytes "song.ogg|10" ++ [x0a] ++ bytes "hello");
                Chunk (bytes "wor");
                ReadThrows (lit "network error");
                Chunk (bytes "ld")] in
  failure (streaming reads) (lit "network error")
  /\ filter is_save (handleDownload audio (streaming reads)) = []
  /\ saved (attempt ui (streaming reads)) = []
  /\ render (attempt ui (streaming reads))
     = mkView None (Some (lit "network error")).
Proof.
  assert (Hf : failure
                 (streaming
                    [Chunk (bytes "song.ogg|10" ++ [x0a] ++ bytes "hello");
                     Chunk (bytes "wor");
                     ReadThrows (lit "network error");
                     Chunk (bytes "ld")])
                 (lit "network error")).
  { apply (stream_read_error _
             [bytes "song.ogg|10" ++ [x0a] ++ bytes "hello"; bytes "wor"]
             (lit "network error") [Chunk (bytes "ld")]); reflexivity. }
  split; [exact Hf|].
  destruct (failed_attempt_saves_nothing (mkUI audio false 0 [] [] []) _ _ Hf)
    as [H1 [_ [H2 H3]]].
  split; [exact H1|]. split; [exact H2 | exact H3].
Defined.

(** * The output file name *)

Lemma strip_extension_no_dot (name : jsstring) :
  no_dot name = true -> strip_extension name = name.
Proof.
  induction name as [|c name IH]; simpl; [reflexivity|].
  intro H. apply andb_prop in H as [Hc Hname].
  apply negb_true_iff in Hc. rewrite Hc. simpl. f_equal. apply IH, Hname.
Qed.

Lemma extension_chars_app_dot (base ext : jsstring) :
  extension_chars (base ++ DOT :: ext) = false.
Proof.
  assert (H : forallb not_slash_dot (base ++ DOT :: ext) = false).
  { rewrite forallb_app. simpl. apply andb_false_r. }
  unfold extension_chars. rewrite H. destruct (base ++ DOT :: ext); reflexivity.
Qed.

(** The pattern removes the last dot and what follows it when that is an
    extension, whatever comes before. *)
Lemma strip_extension_last (base ext : jsstring) :
  extension_chars ext = true -> strip_extension (base ++ DOT :: ext) = base.
Proof.
  intro Hext. induction base as [|c base IH]; simpl.
  - rewrite Hext. reflexivity.
  - rewrite extension_chars_app_dot, andb_false_r. f_equal. exact IH.
Qed.

Lemma remove_last_suffix_no_dot (name : jsstring) :
  no_dot name = true -> remove_last_suffix name = name.
Proof.
  induction name as [|c name IH]; simpl; [reflexivity|].
  intro H. apply andb_prop in H as [Hc Hname].
  apply negb_true_iff in Hc. rewrite Hc. simpl. f_equal. apply IH, Hname.
Qed.

Lemma remove_last_suffix_last (base ext : jsstring) :
  no_dot ext = true -> remove_last_suffix (base ++ DOT :: ext) = base.
Proof.
  intro Hext. induction base as [|c base IH]; simpl.
  - rewrite Hext. reflexivity.
  - assert (H : no_dot (base ++ DOT :: ext) = false).
    { unfold no_dot. rewrite forallb_app. simpl. apply andb_false_r. }
    rewrite H, andb_false_r. f_equal. exact IH.
Qed.

(** Names at the edge of the property: a trailing dot and a slash after the
    last dot are not extensions for the pattern, and of several suffixes
    only the last is removed. *)
Example output_name_edge_cases :
  download_name audio (lit "song.") = lit "song..mp3"
  /\ download_name video (lit "a.b/c") = lit "a.b/c.mp4"
  /\ download_name video (lit "archive.tar.gz") = lit "archive.tar.mp4"
  /\ download_name video (lit ".hidden") = lit ".mp4".
Proof. repeat split. Qed.

(** C7 (received-byte count).  The claim: at the metadata transition the
    counter grows by the payload part of the chunk only, and with a correct
    total it equals the total at completion.  The counter is advanced by
    [value.length - (metadataEndIndex + 1)] with [metadataEndIndex] an
    index into the decoded text.  For the header line [é.webm|5] followed
    by the five payload bytes the counter ends at 6: one header byte has
    been counted, and the total announced by the server, which is the right
    one, is never met.  ([ascii_header_received] is the claim for header
    lines of 7-bit characters.) *)
Theorem accented_header_is_counted :
  let first := [xc3; xa9] ++ bytes ".webm|5" ++ [x0a] ++ bytes "hello" in
  exists s,
    read_loop initial_session (delivered [first])
    = ([SetFileName (233%N :: lit ".webm"); SetProgress (percentage 6 5)],
       Returns s)
    /\ totalLength s = Num 5
    /\ receivedLength s = 6%Z
    /\ Z.of_nat (List.length (after_terminator first)) = 5%Z.
Proof.
  eexists. split; [vm_compute; reflexivity|]. repeat split.
Qed.

(** C8 (reset).  Whatever the state left by an earlier attempt and whatever
    the server answers, the events of an attempt start with the reset,
    which comes before anything the [try] block does, and after it the file
    name and the error message are empty and the progress is zero. *)
Theorem new_attempt_clears_the_state (ui : UI) (fetched : outcome Response) :
  handleDownload (downloadType ui) fetched
  = reset_events
    ++ fst (try_block (downloadType ui) fetched)
    ++ catch_events (snd (try_block (downloadType ui) fetched))
    ++ [SetIsDownloading false]
  /\ fileName (apply_events ui reset_events) = []
  /\ error (apply_events ui reset_events) = []
  /\ progress (apply_events ui reset_events) = 0
  /\ isDownloading (apply_events ui reset_events) = true
  /\ saved (apply_events ui reset_events) = saved ui.
Proof.
  split; [|repeat split].
  unfold handleDownload.
  destruct (try_block (downloadType ui) fetched) as [evs r]. reflexivity.
Qed.

(** C9 (empty payload).  The claim: a header with its terminator and no
    payload byte after it completes with an empty blob.  For the header
    line [é|0] the attempt completes without error, but the saved blob
    holds one byte, the terminator, because the cut is made at the index of
    the terminator in the decoded text.  ([ascii_header_blob] gives the
    empty blob for header lines of 7-bit characters.) *)
Theorem accented_header_alone_is_not_empty :
  let first := [xc3; xa9] ++ bytes "|0" ++ [x0a] in
  handleDownload audio (streaming (delivered [first]))
  = reset_events
    ++ [SetFileName [233%N]; SaveFile (233%N :: lit ".mp3") [x0a];
        SetIsDownloading false]
  /\ after_terminator first = [].
Proof. split; reflexivity. Qed.

(** C10 (header split across reads).  A chunk without terminator byte that
    arrives before the metadata changes nothing: the session after it is
    the session before it (nothing buffered, nothing counted, nothing kept
    for the next read), and the whole attempt runs as if that read had
    never happened, so the next chunk is read as if the header line began
    there. *)
Theorem chunk_without_terminator_is_dropped (value : list byte) :
  has_newline value = false ->
  (forall s, metadataReceived s = false -> fst (on_chunk s value) = s)
  /\ (forall dt reads,
        handleDownload dt (streaming (Chunk value :: reads))
        = handleDownload dt (streaming reads)).
Proof.
  intro Hnl. split.
  - intros s Hm. rewrite on_chunk_skip by assumption. reflexivity.
  - intros dt reads. unfold handleDownload.
    rewrite !try_block_streaming.
    rewrite read_loop_skip by (try reflexivity; exact Hnl). reflexivity.
Qed.

(** The header line [movie.webm|10] split after [movie.we]: the file name
    becomes [bm]. *)
Lemma chunk_without_terminator_is_dropped_witness :
  has_newline (bytes "movie.we") = false
  /\ handleDownload video
       (streaming [Chunk (bytes "movie.we");
                   Chunk (bytes "bm|10" ++ [x0a] ++ bytes "0123456789")])
     = handleDownload video
         (streaming [Chunk (bytes "bm|10" ++ [x0a] ++ bytes "0123456789")]).
Proof.
  split; [reflexivity|].
  exact (proj2 (chunk_without_terminator_is_dropped (bytes "movie.we") eq_refl)
           video [Chunk (bytes "bm|10" ++ [x0a] ++ bytes "0123456789")]).
Defined.

Example split_header_names_the_file_bm :
  filter is_save
    (handleDownload video
       (streaming [Chunk (bytes "movie.we");
                   Chunk (bytes "bm|10" ++ [x0a] ++ bytes "0123456789")]))
  = [SaveFile (lit "bm.mp4") (bytes "0123456789")].
Proof. reflexivity. Qed.

(** Scenario 1 of the specification. *)
Example scenario_movie :
  let payload := repeat x00 100 in
  let s := fst (on_chunk initial_session
                  (bytes "movie.webm|1048576" ++ [x0a] ++ payload)) in
  currentFileName s = lit "movie.webm"
  /\ totalLength s = Num 1048576
  /\ receivedLength s = 100%Z.
Proof. repeat split. Qed.

(** Scenario 5 of the specification, with a header line of 7-bit
    characters: the blob is empty. *)
Example scenario_empty_payload :
  handleDownload video
    (streaming (delivered [bytes "movie.webm|0" ++ [x0a]]))
  = reset_events
    ++ [SetFileName (lit "movie.webm"); SaveFile (lit "movie.mp4") [];
        SetIsDownloading false].
Proof. reflexivity. Qed.

(** A body that is present but delivers nothing is not a failure: an empty
    file is saved under the default name. *)
Example empty_stream_is_saved :
  handleDownload video (streaming [])
  = reset_events ++ [SaveFile (lit "download.mp4") []; SetIsDownloading false].
Proof. reflexivity. Qed.

(** * The terminator in the text and in the bytes *)

Module DecoderLength.
Import TextDecoder.

Lemma units_app (a b : list N) : units (a ++ b) = (units a + units b)%nat.
Proof. unfold units. rewrite flat_map_app, length_app. reflexivity. Qed.

Lemma units_one (cp : N) : (units [cp] <= 2)%nat.
Proof.
  unfold units, utf16. simpl. destruct (cp <? 0x10000)%N; simpl; lia.
Qed.

Lemma lead_units (b : byte) :
  (units (snd (lead (Byte.to_N b))) + credit (fst (lead (Byte.to_N b))) <= 1)%nat.
Proof. destruct b; vm_compute; repeat constructor. Qed.

(** One byte pays for what the decoder emits on reading it, together with
    the byte a pending sequence has kept back. *)
Lemma handler_units (st : state) (b : byte) :
  (units (snd (handler st (Byte.to_N b)))
   + credit (fst (handler st (Byte.to_N b))) <= 1 + credit st)%nat.
Proof.
  pose proof (lead_units b) as Hl.
  unfold handler, credit at 2.
  destruct (bytes_needed st =? 0)%N eqn:Hneed; [lia|].
  destruct ((lower_boundary st <=? Byte.to_N b)
            && (Byte.to_N b <=? upper_boundary st))%N; simpl.
  - destruct (bytes_seen st + 1 =? bytes_needed st)%N; simpl.
    + pose proof (units_one (N.lor (N.shiftl (code_point st) 6)
                               (N.land (Byte.to_N b) 63))).
      unfold credit. simpl. lia.
    + unfold credit. simpl. rewrite Hneed. simpl. lia.
  - destruct (lead (Byte.to_N b)) as [st' out]. cbn [fst snd] in *.
    change (REPLACEMENT :: out) with ([REPLACEMENT] ++ out).
    rewrite units_app.
    change (units [REPLACEMENT]) with 1%nat. lia.
Qed.

(** The decoder at the terminator byte: a pending sequence is closed with
    U+FFFD, the line feed follows, and the decoder is back at the start. *)
Lemma handler_newline (st : state) :
  pending_ok st = true ->
  handler st NL
  = (initial,
     (if (bytes_needed st =? 0)%N then [] else [REPLACEMENT]) ++ [NL]).
Proof.
  intro Hst. unfold handler.
  destruct (bytes_needed st =? 0)%N eqn:Hneed; [reflexivity|].
  unfold pending_ok in Hst. rewrite Hneed in Hst. simpl in Hst.
  apply andb_prop in Hst as [Hst _]. apply andb_prop in Hst as [Hlo _].
  apply N.leb_le in Hlo.
  replace (lower_boundary st <=? NL)%N with false
    by (symmetry; apply N.leb_gt; unfold NL; lia).
  reflexivity.
Qed.

(** The code points decoded from the bytes before the terminator: they hold
    no line feed and are no more than those bytes. *)
Lemma run_to_newline (header : list byte) (nl : byte) (payload : list byte) :
  Byte.to_N nl = NL -> has_newline header = false ->
  forall st, pending_ok st = true ->
  exists out,
    run st (header ++ nl :: payload) = out ++ NL :: run initial payload
    /\ forallb not_newline out = true
    /\ (units out <= List.length header + credit st)%nat.
Proof.
  intros Hnl. induction header as [|b header IH]; intros Hh st Hst.
  - simpl. rewrite Hnl, (handler_newline st Hst).
    exists (if (bytes_needed st =? 0)%N then [] else [REPLACEMENT]).
    rewrite <- app_assoc. split; [reflexivity|].
    unfold credit. destruct (bytes_needed st =? 0)%N; split; reflexivity.
  - simpl in Hh. apply orb_false_elim in Hh as [Hb Hh].
    destruct (DecoderFacts.handler_spec st b Hst) as [Hok Hout].
    rewrite Hb in Hout. pose proof (handler_units st b) as Hu.
    simpl. destruct (handler st (Byte.to_N b)) as [st' o]. simpl in *.
    destruct (IH Hh st' Hok) as [out [Hrun [Hclean Hunits]]].
    exists (o ++ out). rewrite Hrun, <- app_assoc.
    split; [reflexivity|]. rewrite forallb_app, Hout, Hclean, units_app.
    split; [reflexivity | lia].
Qed.

Lemma clean_units_no_newline (out : list N) :
  forallb not_newline out = true -> ~ In NL (flat_map utf16 out).
Proof.
  intros Hclean Hin. apply in_flat_map in Hin as [cp [Hcp Hin]].
  apply (proj1 (DecoderFacts.utf16_newline cp)) in Hin. subst cp.
  rewrite forallb_forall in Hclean. apply Hclean in Hcp. discriminate Hcp.
Qed.

(** The terminator is found in the text no later than in the bytes. *)
Lemma text_index_le_byte_index (value : list byte) :
  has_newline value = true ->
  (0 <= metadata_index value
   <= Z.of_nat (List.length (before_terminator value)))%Z.
Proof.
  intro Hnl.
  destruct (terminator_split value Hnl) as [nl [Hnlb Hsplit]].
  assert (Hhdr : has_newline (before_terminator value) = false).
  { clear. induction value as [|b value IH]; simpl; [reflexivity|].
    destruct (N.eqb_spec (Byte.to_N b) NL) as [Hb | Hb]; simpl; [reflexivity|].
    apply N.eqb_neq in Hb. rewrite Hb. exact IH. }
  destruct (run_to_newline (before_terminator value) nl
              (after_terminator value) Hnlb Hhdr initial eq_refl)
    as [out [Hrun [Hclean Hunits]]].
  change (credit initial) with 0%nat in Hunits.
  assert (Hstrip : exists out',
             strip_bom (out ++ NL :: run initial (after_terminator value))
             = out' ++ NL :: run initial (after_terminator value)
             /\ forallb not_newline out' = true
             /\ (units out' <= units out)%nat).
  { destruct out as [|c out]; [exists []; repeat split; simpl; lia|].
    simpl. simpl in Hclean. apply andb_prop in Hclean as [Hc Hclean].
    destruct (c =? BOM)%N.
    - exists out. repeat split; [exact Hclean|].
      change (c :: out) with ([c] ++ out). rewrite units_app. lia.
    - exists (c :: out). repeat split; [|lia]. simpl. rewrite Hc. exact Hclean. }
  destruct Hstrip as [out' [Hstrip [Hclean' Hunits']]].
  set (header := before_terminator value) in *.
  set (payload := after_terminator value) in *.
  unfold metadata_index, decode. rewrite Hsplit, Hrun, Hstrip.
  rewrite flat_map_app. simpl.
  change (utf16 NL) with [NL]. simpl.
  rewrite indexOf_first by (apply clean_units_no_newline, Hclean').
  unfold units in *. lia.
Qed.

End DecoderLength.

(** * The counter and the buffer *)

Lemma total_bytes_app (a b : list (list byte)) :
  total_bytes (a ++ b) = (total_bytes a + total_bytes b)%Z.
Proof. unfold total_bytes. rewrite concat_app, length_app. lia. Qed.

Lemma total_bytes_one (v : list byte) :
  total_bytes [v] = Z.of_nat (List.length v).
Proof. unfold total_bytes. simpl. rewrite app_nil_r. reflexivity. Qed.

(** What the cut leaves of the header chunk: the payload, preceded by the
    end of the header line when the text index is short of the byte index. *)
Lemma slice_of_header_chunk (value : list byte) :
  has_newline value = true ->
  exists front leak nl,
    u8_slice value (metadata_index value + 1) = leak ++ after_terminator value
    /\ front ++ leak = before_terminator value ++ [nl]
    /\ Byte.to_N nl = NL
    /\ Z.of_nat (List.length leak)
       = (Z.of_nat (List.length (before_terminator value))
          - metadata_index value)%Z.
Proof.
  intro Hnl.
  pose proof (DecoderLength.text_index_le_byte_index value Hnl) as Hidx.
  destruct (terminator_split value Hnl) as [nl [Hnlb Hsplit]].
  set (header := before_terminator value) in *.
  set (payload := after_terminator value) in *.
  set (k := Z.to_nat (metadata_index value + 1)).
  assert (Hk : (k <= List.length (header ++ [nl]))%nat)
    by (rewrite length_app; simpl; lia).
  exists (firstn k (header ++ [nl])), (skipn k (header ++ [nl])), nl.
  split; [|split; [apply firstn_skipn | split; [exact Hnlb|]]].
  - unfold u8_slice. fold k. rewrite Hsplit at 1.
    change (header ++ nl :: payload) with (header ++ [nl] ++ payload).
    rewrite app_assoc, skipn_app.
    replace (k - List.length (header ++ [nl]))%nat with 0%nat by lia.
    reflexivity.
  - rewrite length_skipn, length_app. simpl. lia.
Qed.

Lemma slice_counts (value : list byte) :
  has_newline value = true ->
  Z.of_nat (List.length (u8_slice value (metadata_index value + 1)))
  = (Z.of_nat (List.length value) - (metadata_index value + 1))%Z.
Proof.
  intro Hnl.
  destruct (slice_of_header_chunk value Hnl)
    as [front [leak [nl [Hslice [_ [_ Hlen]]]]]].
  destruct (terminator_split value Hnl) as [nl' [_ Hsplit]].
  rewrite Hslice, length_app. rewrite Hsplit at 2.
  rewrite length_app. simpl. lia.
Qed.

Lemma on_chunk_counted (s : Session) (value : list byte) :
  counted s -> counted (fst (on_chunk s value)).
Proof.
  unfold counted. intro Hs. destruct (metadataReceived s) eqn:Hm.
  - rewrite on_chunk_payload by exact Hm. simpl.
    rewrite total_bytes_app. lia.
  - destruct (has_newline value) eqn:Hnl.
    + rewrite on_chunk_metadata by assumption. simpl.
      rewrite total_bytes_app, total_bytes_one, slice_counts by exact Hnl.
      lia.
    + rewrite on_chunk_skip by assumption. exact Hs.
Qed.

Lemma read_loop_counted (reads : list read_result) :
  forall s s', counted s -> snd (read_loop s reads) = Returns s' -> counted s'.
Proof.
  induction reads as [|[v | m] reads IH]; intros s s' Hs H; simpl in H.
  - injection H as <-. exact Hs.
  - pose proof (on_chunk_counted s v Hs) as Hc.
    destruct (on_chunk s v) as [s1 evs]. specialize (IH s1 s').
    destruct (read_loop s1 reads) as [evs' r]. simpl in *.
    apply IH; assumption.
  - discriminate H.
Qed.

(** X1 (counter and buffer).  When the stream ends without a failure, the
    number in [receivedLength] is the size of the blob built from [chunks]:
    whatever the header line looks like, what is counted is what is
    buffered. *)
Theorem received_length_is_the_blob_size
        (reads : list read_result) (s : Session) :
  snd (read_loop initial_session reads) = Returns s ->
  receivedLength s = Z.of_nat (List.length (new_Blob (chunks s))).
Proof.
  intro H. apply (read_loop_counted reads initial_session s); [|exact H].
  reflexivity.
Qed.

Lemma received_length_is_the_blob_size_witness :
  let reads := delivered [[xc3; xa9] ++ bytes "|5" ++ [x0a] ++ bytes "hel";
                          bytes "lo"] in
  exists s,
    snd (read_loop initial_session reads) = Returns s
    /\ new_Blob (chunks s) = x0a :: bytes "hello"
    /\ receivedLength s = 6%Z.
Proof.
  eexists. split; [reflexivity|]. split; [reflexivity|].
  exact (received_length_is_the_blob_size
           (delivered [[xc3; xa9] ++ bytes "|5" ++ [x0a] ++ bytes "hel";
                       bytes "lo"]) _ eq_refl).
Defined.

(** X2 (the counter never goes down).  Whatever the session and whatever
    the chunk - also a header chunk whose line is not 7-bit text - the
    counter after the chunk is at least the counter before it. *)
Theorem received_length_never_decreases (s : Session) (value : list byte) :
  (receivedLength s <= receivedLength (fst (on_chunk s value)))%Z.
Proof.
  destruct (metadataReceived s) eqn:Hm.
  - rewrite on_chunk_payload by exact Hm. simpl. rewrite total_bytes_one. lia.
  - destruct (has_newline value) eqn:Hnl.
    + rewrite on_chunk_metadata by assumption. simpl.
      rewrite <- slice_counts by exact Hnl. lia.
    + rewrite on_chunk_skip by assumption. simpl. lia.
Qed.

(** X3 (the payload is never cut).  For every stream that completes, the
    saved blob ends with the bytes after the terminator of the header chunk
    followed by all later chunks, in order.  In front of them there can
    only be the last bytes of the header line with its terminator, as many
    as the text index of the terminator is short of its byte index. *)
Theorem saved_blob_ends_with_the_payload
        (dt : DownloadType) (pre : list (list byte)) (header : list byte)
        (rest : list (list byte)) :
  forallb (fun v => negb (has_newline v)) pre = true ->
  has_newline header = true ->
  exists front leak nl,
    filter is_save
      (handleDownload dt (streaming (delivered (pre ++ header :: rest))))
    = [SaveFile (download_name dt (metadata_name header (lit "download")))
         (leak ++ after_terminator header ++ List.concat rest)]
    /\ front ++ leak = before_terminator header ++ [nl]
    /\ Byte.to_N nl = NL
    /\ Z.of_nat (List.length leak)
       = (Z.of_nat (List.length (before_terminator header))
          - metadata_index header)%Z.
Proof.
  intros Hpre Hnl.
  destruct (slice_of_header_chunk header Hnl)
    as [front [leak [nl [Hslice [Hfront [Hnlb Hlen]]]]]].
  exists front, leak, nl.
  split; [|split; [exact Hfront | split; [exact Hnlb | exact Hlen]]].
  destruct (attempt_completes dt pre header rest Hpre Hnl)
    as [evs [Hloop [_ Heq]]].
  rewrite Heq. unfold reset_events. simpl.
  rewrite filter_app, (loop_events_save_nothing evs Hloop). simpl.
  unfold new_Blob. simpl. rewrite Hslice, <- app_assoc. reflexivity.
Qed.

Lemma saved_blob_ends_with_the_payload_witness :
  let header := [xc3; xa9] ++ bytes "|5" ++ [x0a] ++ bytes "hel" in
  has_newline header = true
  /\ exists front leak nl,
       filter is_save
         (handleDownload video (streaming (delivered [header; bytes "lo"])))
       = [SaveFile (download_name video (metadata_name header (lit "download")))
            (leak ++ after_terminator header ++ List.concat [bytes "lo"])]
       /\ front ++ leak = before_terminator header ++ [nl]
       /\ Byte.to_N nl = NL
       /\ Z.of_nat (List.length leak)
          = (Z.of_nat (List.length (before_terminator header))
             - metadata_index header)%Z.
Proof.
  split; [reflexivity|].
  exact (saved_blob_ends_with_the_payload video []
           ([xc3; xa9] ++ bytes "|5" ++ [x0a] ++ bytes "hel") [bytes "lo"]
           eq_refl eq_refl).
Defined.

(** * Reading a header line of 7-bit characters *)

Lemma split_head (sep : N) (a b : jsstring) :
  ~ In sep a -> split sep (a ++ sep :: b) = a :: split sep b.
Proof.
  induction a as [|c a IH]; intro Ha; simpl.
  - rewrite N.eqb_refl. reflexivity.
  - destruct (N.eqb_spec c sep) as [-> | Hc];
      [exfalso; apply Ha; left; reflexivity|].
    rewrite IH by (intro H; apply Ha; right; exact H). reflexivity.
Qed.

Lemma split_first (sep : N) (s : jsstring) :
  nth_error (split sep s) 0 = Some (first_field sep s).
Proof.
  induction s as [|c s IH]; simpl; [reflexivity|].
  destruct (N.eqb c sep); [reflexivity|].
  destruct (split sep s) as [|p ps]; [discriminate IH|].
  simpl in *. injection IH as ->. reflexivity.
Qed.

Lemma first_field_app (sep : N) (a b : jsstring) :
  ~ In sep a -> first_field sep (a ++ b) = a ++ first_field sep b.
Proof.
  induction a as [|c a IH]; intro Ha; simpl; [reflexivity|].
  destruct (N.eqb_spec c sep) as [-> | Hc];
    [exfalso; apply Ha; left; reflexivity|].
  rewrite IH by (intro H; apply Ha; right; exact H). reflexivity.
Qed.

Lemma digit_cases (c : N) :
  is_digit c = true ->
  c = 48%N \/ c = 49%N \/ c = 50%N \/ c = 51%N \/ c = 52%N
  \/ c = 53%N \/ c = 54%N \/ c = 55%N \/ c = 56%N \/ c = 57%N.
Proof.
  unfold is_digit. intro H. apply andb_prop in H as [H1 H2].
  apply N.leb_le in H1, H2. lia.
Qed.

Lemma digit_is_plain (c : N) :
  is_digit c = true ->
  is_white_space c = false /\ N.eqb c 45 = false /\ N.eqb c 43 = false
  /\ N.eqb c PIPE = false /\ N.eqb c NL = false /\ N.leb c 0x7F = true.
Proof.
  intro H. apply digit_cases in H.
  repeat (destruct H as [-> | H]; [repeat split|]). subst c. repeat split.
Qed.

Lemma digits_prefix_app (ds rest : jsstring) :
  forallb is_digit ds = true ->
  match rest with [] => true | c :: _ => negb (is_digit c) end = true ->
  digits_prefix (ds ++ rest) = ds.
Proof.
  intros Hds Hrest. induction ds as [|d ds IH]; simpl.
  - destruct rest as [|c rest]; [reflexivity|].
    simpl. apply negb_true_iff in Hrest. rewrite Hrest. reflexivity.
  - simpl in Hds. apply andb_prop in Hds as [Hd Hds].
    rewrite Hd. f_equal. apply IH, Hds.
Qed.

Lemma terminator_after_line (line payload : list byte) (nl : byte) :
  Byte.to_N nl = NL -> has_newline line = false ->
  has_newline (line ++ nl :: payload) = true
  /\ before_terminator (line ++ nl :: payload) = line
  /\ after_terminator (line ++ nl :: payload) = payload.
Proof.
  intros Hnl. induction line as [|b line IH]; intro Hline; simpl.
  - rewrite Hnl. simpl. auto.
  - simpl in Hline. apply orb_false_elim in Hline as [Hb Hline].
    rewrite Hb. simpl. destruct (IH Hline) as [H1 [H2 H3]].
    rewrite H1, H2, H3. auto.
Qed.

Lemma digit_bytes_plain (digits : list byte) :
  digit_bytes digits = true ->
  ascii_only digits = true /\ has_newline digits = false
  /\ forallb is_digit (map Byte.to_N digits) = true
  /\ ~ In PIPE (map Byte.to_N digits).
Proof.
  induction digits as [|b digits IH]; simpl; [intros _; repeat split; tauto|].
  intro H. apply andb_prop in H as [Hb H].
  destruct (IH H) as [H1 [H2 [H3 H4]]].
  destruct (digit_is_plain _ Hb) as [_ [_ [_ [Hpipe [Hnl Hascii]]]]].
  rewrite Hb, H1, H2, H3, Hnl, Hascii. repeat split.
  intros [Hin | Hin]; [|exact (H4 Hin)].
  rewrite Hin, N.eqb_refl in Hpipe. discriminate Hpipe.
Qed.

Lemma no_pipe_units (name : list byte) :
  no_pipe name = true -> ~ In PIPE (map Byte.to_N name).
Proof.
  induction name as [|b name IH]; simpl; [tauto|].
  intro H. apply andb_prop in H as [Hb H]. apply negb_true_iff in Hb.
  intros [Hin | Hin]; [|exact (IH H Hin)].
  rewrite Hin, N.eqb_refl in Hb. discriminate Hb.
Qed.

Lemma first_field_start (sep : N) (junk : list byte) :
  ends_number junk = true ->
  match first_field sep (map Byte.to_N junk) with
  | [] => true
  | c :: _ => negb (is_digit c)
  end = true.
Proof.
  destruct junk as [|b junk]; simpl; [reflexivity|].
  intro H. destruct (N.eqb (Byte.to_N b) sep); [reflexivity | exact H].
Qed.

(** X5 (a stream without terminator).  When no chunk of a stream holds the
    terminator byte, every byte of the stream is dropped: nothing is
    reported, no file name is set, and an empty file is saved under the
    default name with the extension of the mode. *)
Theorem stream_without_terminator_saves_an_empty_file
        (dt : DownloadType) (values : list (list byte)) :
  forallb (fun v => negb (has_newline v)) values = true ->
  handleDownload dt (streaming (delivered values))
  = reset_events
    ++ [SaveFile (lit "download" ++ fileExtension dt) [];
        SetIsDownloading false].
Proof.
  intro Hvalues. unfold handleDownload. rewrite try_block_streaming.
  rewrite <- (app_nil_r (delivered values)).
  rewrite read_loop_skip_all by (try reflexivity; exact Hvalues).
  reflexivity.
Qed.

Lemma stream_without_terminator_saves_an_empty_file_witness :
  handleDownload audio
    (streaming (delivered [bytes "song.ogg|10"; bytes "0123456789"]))
  = reset_events ++ [SaveFile (lit "download.mp3") []; SetIsDownloading false].
Proof.
  exact (stream_without_terminator_saves_an_empty_file audio
           [bytes "song.ogg|10"; bytes "0123456789"] eq_refl).
Defined.

(** * The events of the loop *)

Lemma report_progress_shape (s : Session) :
  exists ps, report_progress s = map SetProgress ps.
Proof.
  unfold report_progress. destruct (truthy (totalLength s));
    [|exists []; reflexivity].
  destruct (totalLength s) as [| |t];
    [exists [] | exists [] | exists [percentage (receivedLength s) t]];
    reflexivity.
Qed.

Lemma loop_after_metadata (reads : list read_result) :
  forall s, metadataReceived s = true ->
  exists ps, fst (read_loop s reads) = map SetProgress ps.
Proof.
  induction reads as [|[v | m] reads IH]; intros s Hm; simpl;
    try (exists []; reflexivity).
  rewrite on_chunk_payload by exact Hm.
  destruct (report_progress_shape (with_payload s [v])) as [ps Hps].
  destruct (IH (with_payload s [v]) Hm) as [ps' Hps'].
  destruct (read_loop (with_payload s [v]) reads) as [evs r]. simpl in *.
  exists (ps ++ ps'). rewrite Hps, Hps', map_app. reflexivity.
Qed.

Lemma loop_before_metadata (reads : list read_result) :
  forall s, metadataReceived s = false -> truthy (totalLength s) = false ->
  fst (read_loop s reads) = []
  \/ exists name ps, fst (read_loop s reads) = SetFileName name :: map SetProgress ps.
Proof.
  induction reads as [|[v | m] reads IH]; intros s Hm Ht;
    try (left; reflexivity).
  destruct (has_newline v) eqn:Hnl.
  - right. simpl. rewrite on_chunk_metadata by assumption.
    destruct (report_progress_shape (with_metadata s v)) as [ps Hps].
    destruct (loop_after_metadata reads (with_metadata s v) eq_refl)
      as [ps' Hps'].
    destruct (read_loop (with_metadata s v) reads) as [evs r]. simpl in *.
    exists (metadata_name v (currentFileName s)), (ps ++ ps').
    rewrite Hps, Hps', map_app. reflexivity.
  - rewrite read_loop_skip by assumption. apply IH; assumption.
Qed.

(** X6 (order of the loop events).  Whatever the reads deliver or throw,
    the loop sets the file name at most once, and no percentage is reported
    before it: the events of the loop are either none, or one file name
    followed by percentages only. *)
Theorem file_name_is_set_once_before_any_progress (reads : list read_result) :
  fst (read_loop initial_session reads) = []
  \/ exists name ps,
       fst (read_loop initial_session reads)
       = SetFileName name :: map SetProgress ps.
Proof. apply loop_before_metadata; reflexivity. Qed.

(** * The reported percentages *)

Lemma progress_values_map_of (f : Z -> Q) (rs : list Z) :
  progress_values (map (fun r => SetProgress (f r)) rs) = map f rs.
Proof. induction rs as [|r rs IH]; simpl; [|rewrite IH]; reflexivity. Qed.

Lemma progress_values_app (a b : list event) :
  progress_values (a ++ b) = progress_values a ++ progress_values b.
Proof.
  induction a as [|e a IH]; simpl; [reflexivity|].
  destruct e; simpl; rewrite IH; reflexivity.
Qed.

(** After the metadata, with a total other than zero, one percentage per
    chunk, computed from the running byte count. *)
Lemma progress_after_metadata (values : list (list byte)) (t : Z) :
  t <> 0%Z ->
  forall s, metadataReceived s = true -> totalLength s = Num t ->
  fst (read_loop s (delivered values))
  = map (fun r => SetProgress (percentage r t))
      (running (receivedLength s) values).
Proof.
  intro Hnz. induction values as [|v values IH]; intros s Hm Ht; simpl;
    [reflexivity|].
  rewrite on_chunk_payload by exact Hm.
  specialize (IH (with_payload s [v]) Hm Ht).
  destruct (read_loop (with_payload s [v]) (delivered values)) as [evs r].
  simpl in *. rewrite IH. unfold report_progress. simpl. rewrite Ht. simpl.
  destruct (Z.eqb_spec t 0) as [? | _]; [contradiction|]. simpl.
  rewrite total_bytes_one. reflexivity.
Qed.

Lemma progress_of_the_loop (pre : list (list byte)) (header : list byte)
      (rest : list (list byte)) (t : Z) :
  forallb (fun v => negb (has_newline v)) pre = true ->
  has_newline header = true ->
  metadata_size header = Num t -> t <> 0%Z ->
  progress_values
    (fst (read_loop initial_session (delivered (pre ++ header :: rest))))
  = map (fun r => percentage r t)
      (receivedLength (with_metadata initial_session header)
       :: running (receivedLength (with_metadata initial_session header)) rest).
Proof.
  intros Hpre Hnl Hsize Hnz.
  unfold delivered. rewrite map_app.
  rewrite (read_loop_skip_all pre initial_session _ eq_refl eq_refl Hpre).
  simpl. rewrite on_chunk_metadata by (try reflexivity; exact Hnl).
  pose proof (progress_after_metadata rest t Hnz
                (with_metadata initial_session header) eq_refl Hsize) as Hrest.
  unfold delivered in Hrest.
  destruct (read_loop (with_metadata initial_session header) (map Chunk rest))
    as [evs r]. simpl in *. rewrite Hrest.
  unfold report_progress. simpl totalLength. rewrite Hsize. simpl.
  destruct (Z.eqb_spec t 0) as [? | _]; [contradiction|]. simpl.
  f_equal. apply (progress_values_map_of (fun r => percentage r t)).
Qed.

Lemma attempt_progress (dt : DownloadType) (reads : list read_result) :
  progress_values (handleDownload dt (streaming reads))
  = 0 :: progress_values (fst (read_loop initial_session reads)).
Proof.
  unfold handleDownload. rewrite try_block_streaming.
  destruct (read_loop initial_session reads) as [evs [m | s]]; simpl;
    f_equal; rewrite ?progress_values_app; simpl;
    rewrite ?progress_values_app; simpl; rewrite ?app_nil_r; reflexivity.
Qed.

Lemma percentage_monotone (r r' t : Z) :
  (0 < t)%Z -> (r <= r')%Z -> percentage r t <= percentage r' t.
Proof.
  intros Ht Hr. unfold percentage.
  apply Qmult_le_compat_r; [|discriminate].
  unfold Qdiv. apply Qmult_le_compat_r; [rewrite <- Zle_Qle; exact Hr|].
  apply Qinv_le_0_compat. change 0 with (inject_Z 0).
  rewrite <- Zle_Qle. lia.
Qed.

Lemma percentage_nonneg (r t : Z) :
  (0 < t)%Z -> (0 <= r)%Z -> 0 <= percentage r t.
Proof.
  intros Ht Hr. apply Qle_trans with (percentage 0 t).
  - unfold percentage, Qdiv. rewrite !Qmult_0_l. apply Qle_refl.
  - apply percentage_monotone; assumption.
Qed.

Lemma running_sorted (values : list (list byte)) :
  forall r, StronglySorted Z.le (running r values)
            /\ Forall (Z.le r) (running r values).
Proof.
  induction values as [|v values IH]; intro r; simpl.
  - split; constructor.
  - destruct (IH (r + Z.of_nat (List.length v))%Z) as [Hs Hf].
    split; [constructor; assumption|].
    constructor; [lia|].
    apply Forall_impl with (2 := Hf). intros a Ha. lia.
Qed.

Lemma sorted_map (f : Z -> Q) (rs : list Z) :
  (forall a b, (a <= b)%Z -> f a <= f b) ->
  StronglySorted Z.le rs -> StronglySorted Qle (map f rs).
Proof.
  intros Hf Hs. induction Hs as [|a rs Hs IH Hall]; simpl; constructor.
  - exact IH.
  - apply Forall_map. apply Forall_impl with (2 := Hall). apply Hf.
Qed.

(** X8 (the bar never moves back).  When the size field of the header line
    parses to a positive total, the values passed to [setProgress] during
    the attempt - the zero of the reset, then one per chunk from the header
    chunk on - never decrease, whatever the bytes of the header line. *)
Theorem progress_never_decreases
        (dt : DownloadType) (pre : list (list byte)) (header : list byte)
        (rest : list (list byte)) (t : Z) :
  forallb (fun v => negb (has_newline v)) pre = true ->
  has_newline header = true ->
  metadata_size header = Num t -> (0 < t)%Z ->
  StronglySorted Qle
    (progress_values
       (handleDownload dt (streaming (delivered (pre ++ header :: rest))))).
Proof.
  intros Hpre Hnl Hsize Ht.
  rewrite attempt_progress, (progress_of_the_loop pre header rest t)
    by (try assumption; lia).
  set (r1 := receivedLength (with_metadata initial_session header)).
  assert (Hr1 : (0 <= r1)%Z).
  { unfold r1, with_metadata. simpl. rewrite <- slice_counts by exact Hnl.
    lia. }
  destruct (running_sorted rest r1) as [Hs Hf].
  assert (Hall : StronglySorted Z.le (r1 :: running r1 rest))
    by (constructor; assumption).
  constructor.
  - apply sorted_map; [|exact Hall].
    intros a b Hab. apply percentage_monotone; assumption.
  - apply Forall_map. constructor.
    + apply percentage_nonneg; assumption.
    + apply Forall_impl with (2 := Hf). intros a Ha.
      apply percentage_nonneg; [exact Ht | lia].
Qed.

Lemma progress_never_decreases_witness :
  let header := [xc3; xa9] ++ bytes "|10" ++ [x0a] ++ bytes "0123" in
  metadata_size header = Num 10
  /\ StronglySorted Qle
       (progress_values
          (handleDownload video
             (streaming (delivered ([] ++ header :: [bytes "456789"]))))).
Proof.
  split; [reflexivity|].
  exact (progress_never_decreases video []
           ([xc3; xa9] ++ bytes "|10" ++ [x0a] ++ bytes "0123")
           [bytes "456789"] 10 eq_refl eq_refl eq_refl eq_refl).
Defined.

Lemma running_last (values : list (list byte)) :
  forall r v, exists front,
    running r (v :: values) = front ++ [(r + total_bytes (v :: values))%Z].
Proof.
  induction values as [|w values IH]; intros r v.
  - exists []. simpl. rewrite total_bytes_one. reflexivity.
  - destruct (IH (r + Z.of_nat (List.length v))%Z w) as [front Hfront].
    exists ((r + Z.of_nat (List.length v))%Z :: front).
    change (running r (v :: w :: values))
      with ((r + Z.of_nat (List.length v))%Z
            :: running (r + Z.of_nat (List.length v)) (w :: values)).
    rewrite Hfront. simpl. do 3 f_equal.
    change (v :: w :: values) with ([v] ++ w :: values).
    rewrite total_bytes_app, total_bytes_one. lia.
Qed.

(** X9 (the bar ends at 100).  With a header line of 7-bit characters whose
    size field is the number of payload bytes the stream delivers, that
    number not being zero, the last value passed to [setProgress] in the
    attempt is 100. *)
Theorem progress_ends_at_100
        (dt : DownloadType) (pre : list (list byte)) (header : list byte)
        (rest : list (list byte)) :
  forallb (fun v => negb (has_newline v)) pre = true ->
  has_newline header = true ->
  ascii_only (before_terminator header) = true ->
  metadata_size header = Num (total_bytes (after_terminator header :: rest)) ->
  total_bytes (after_terminator header :: rest) <> 0%Z ->
  exists ps p,
    progress_values
      (handleDownload dt (streaming (delivered (pre ++ header :: rest))))
    = ps ++ [p]
    /\ p == 100.
Proof.
  intros Hpre Hnl Hascii Hsize Hnz.
  set (t := total_bytes (after_terminator header :: rest)) in *.
  rewrite attempt_progress.
  rewrite (progress_of_the_loop pre header rest t) by assumption.
  destruct (AsciiHeader.metadata_of_chunk header Hnl Hascii)
    as [_ [_ [_ Hlen]]].
  unfold with_metadata. simpl receivedLength. rewrite Hlen.
  change (Z.of_nat (List.length (after_terminator header))
          :: running (Z.of_nat (List.length (after_terminator header))) rest)
    with (running 0 (after_terminator header :: rest)).
  destruct (running_last rest 0%Z (after_terminator header)) as [front Hfront].
  rewrite Hfront, map_app. simpl. fold t.
  exists (0 :: map (fun r => percentage r t) front), (percentage t t).
  split; [reflexivity|].
  unfold percentage. field.
  intro H. apply Hnz. unfold Qeq in H. simpl in H. lia.
Qed.

Lemma progress_ends_at_100_witness :
  let header := bytes "a.webm|10" ++ [x0a] ++ bytes "0123" in
  metadata_size header
  = Num (total_bytes (after_terminator header :: [bytes "456"; bytes "789"]))
  /\ exists ps p,
       progress_values
         (handleDownload audio
            (streaming (delivered ([] ++ header :: [bytes "456"; bytes "789"]))))
       = ps ++ [p]
       /\ p == 100.
Proof.
  split; [reflexivity|].
  apply (progress_ends_at_100 audio []
           (bytes "a.webm|10" ++ [x0a] ++ bytes "0123")
           [bytes "456"; bytes "789"]); try reflexivity.
  discriminate.
Defined.

(** * The attempt as a whole *)

Lemma completed_try_block (dt : DownloadType) (fetched : outcome Response)
      (u : unit) :
  snd (try_block dt fetched) = Returns u ->
  exists evs name blob,
    forallb loop_event evs = true
    /\ fst (try_block dt fetched) = evs ++ [SaveFile name blob].
Proof.
  destruct fetched as [m | response]; simpl; [discriminate|].
  destruct (ok response); simpl.
  - destruct (body response) as [reads|]; simpl; [|discriminate].
    pose proof (read_loop_loop_event reads initial_session) as Hloop.
    destruct (read_loop initial_session reads) as [evs [m | s]]; simpl in *;
      [discriminate|].
    intros _. exists evs, (download_name dt (currentFileName s)),
                (new_Blob (chunks s)).
    split; [exact Hloop | reflexivity].
  - destruct (text response); discriminate.
Qed.

(** X10 (one outcome per attempt).  Every attempt ends in exactly one of two
    ways.  Either it fails for one of the causes of [failure]: then nothing
    is saved and the error is the message of the failure.  Or it saves
    exactly one file: then no error is set after the reset, the file is
    added to the saved ones, and afterwards neither the progress panel nor
    an alert is shown. *)
Theorem attempt_fails_or_saves_one_file (ui : UI) (fetched : outcome Response) :
  (exists message,
     failure fetched message
     /\ filter is_save (handleDownload (downloadType ui) fetched) = []
     /\ error (attempt ui fetched) = message
     /\ saved (attempt ui fetched) = saved ui)
  \/ (exists name blob,
        filter is_save (handleDownload (downloadType ui) fetched)
        = [SaveFile name blob]
        /\ filter is_error (handleDownload (downloadType ui) fetched)
           = [SetError []]
        /\ saved (attempt ui fetched) = saved ui ++ [(name, blob)]
        /\ render (attempt ui fetched) = mkView None None).
Proof.
  destruct (snd (try_block (downloadType ui) fetched)) as [m | u] eqn:Hres.
  - left. exists m.
    pose proof (thrown_is_failure _ _ _ Hres) as Hf.
    destruct (failed_attempt ui fetched m Hf)
      as [evs [Hloop [Heq [H1 [H2 _]]]]].
    split; [exact Hf|]. split; [|split; assumption].
    rewrite Heq, !filter_app, (loop_events_save_nothing evs Hloop).
    reflexivity.
  - right.
    destruct (completed_try_block _ _ _ Hres) as [evs [name [blob [Hloop Hevs]]]].
    exists name, blob.
    assert (Heq : handleDownload (downloadType ui) fetched
                  = reset_events ++ evs
                    ++ [SaveFile name blob; SetIsDownloading false]).
    { unfold handleDownload.
      destruct (try_block (downloadType ui) fetched) as [evs' r].
      simpl in *. subst evs' r. simpl. rewrite <- app_assoc. reflexivity. }
    assert (Herr : filter is_error evs = []).
    { clear -Hloop. induction evs as [|e evs IH]; [reflexivity|].
      simpl in Hloop. apply andb_prop in Hloop as [He Hevs].
      destruct e; try discriminate He; simpl; apply IH, Hevs. }
    destruct (apply_loop_events evs (apply_events ui reset_events) Hloop)
      as [H1 [H2 H3]].
    unfold attempt, render. rewrite Heq.
    rewrite !filter_app, (loop_events_save_nothing evs Hloop), Herr.
    unfold apply_events in *. rewrite !fold_left_app. simpl in *.
    rewrite H1, H2. repeat split.
Qed.

Lemma loop_event_is_no_flag (evs : list event) :
  forallb loop_event evs = true ->
  forallb (fun e => negb (is_flag e)) evs = true.
Proof.
  induction evs as [|e evs IH]; simpl; [reflexivity|].
  intro H. apply andb_prop in H as [He Hevs]. rewrite (IH Hevs).
  destruct e; try discriminate He; reflexivity.
Qed.

Lemma try_block_sets_no_flag (dt : DownloadType) (fetched : outcome Response) :
  forallb (fun e => negb (is_flag e))
    (fst (try_block dt fetched) ++ catch_events (snd (try_block dt fetched)))
  = true.
Proof.
  destruct (snd (try_block dt fetched)) as [m | u] eqn:Hres.
  - pose proof (thrown_is_failure _ _ _ Hres) as Hf.
    destruct (failure_throws dt fetched m Hf) as [_ Hloop].
    rewrite forallb_app, (loop_event_is_no_flag _ Hloop). reflexivity.
  - destruct (completed_try_block _ _ _ Hres)
      as [evs [name [blob [Hloop Hevs]]]].
    rewrite Hevs, !forallb_app, (loop_event_is_no_flag _ Hloop). reflexivity.
Qed.

Lemma flag_is_kept (evs : list event) :
  forall ui, forallb (fun e => negb (is_flag e)) evs = true ->
  isDownloading (apply_events ui evs) = isDownloading ui.
Proof.
  unfold apply_events. induction evs as [|e evs IH]; intros ui H; simpl;
    [reflexivity|].
  simpl in H. apply andb_prop in H as [He Hevs]. rewrite (IH _ Hevs).
  destruct e; try discriminate He; reflexivity.
Qed.

Lemma attempt_between_the_flags (dt : DownloadType)
      (fetched : outcome Response) :
  exists mid,
    handleDownload dt fetched
    = SetIsDownloading true :: mid ++ [SetIsDownloading false]
    /\ forallb (fun e => negb (is_flag e)) mid = true.
Proof.
  exists ([SetProgress 0; SetError []; SetFileName []]
          ++ fst (try_block dt fetched)
          ++ catch_events (snd (try_block dt fetched))).
  split.
  - unfold handleDownload. destruct (try_block dt fetched) as [evs r].
    simpl. rewrite <- app_assoc. reflexivity.
  - rewrite forallb_app, try_block_sets_no_flag. reflexivity.
Qed.

(** X11 (no second download while one runs).  At every point of an attempt
    after its first event and before its last, [isDownloading] is true, so
    the download button is disabled whatever the URL field holds and
    whatever the URL parser says of it; after the last event the flag is
    false again. *)
Theorem button_is_disabled_during_the_attempt
        (new_URL : jsstring -> outcome unit) (url : jsstring)
        (ui : UI) (fetched : outcome Response) (done todo : list event) :
  handleDownload (downloadType ui) fetched = done ++ todo ->
  done <> [] -> todo <> [] ->
  isDownloading (apply_events ui done) = true
  /\ download_disabled new_URL url (apply_events ui done) = true
  /\ isDownloading (attempt ui fetched) = false.
Proof.
  intros Hsplit Hdone Htodo.
  destruct (attempt_between_the_flags (downloadType ui) fetched)
    as [mid [Heq Hmid]].
  assert (Hend : isDownloading (attempt ui fetched) = false).
  { unfold attempt, apply_events. rewrite Heq. simpl.
    rewrite fold_left_app. reflexivity. }
  assert (Hflag : isDownloading (apply_events ui done) = true).
  { rewrite Heq in Hsplit.
    destruct done as [|e done]; [contradiction|].
    destruct (exists_last Htodo) as [todo' [z Hz]]. subst todo.
    simpl in Hsplit. injection Hsplit as He Hrest. subst e.
    rewrite app_assoc in Hrest. apply app_inj_tail in Hrest as [Hrest _].
    rewrite Hrest, forallb_app in Hmid. apply andb_prop in Hmid as [Hd _].
    exact (flag_is_kept done (apply_event ui (SetIsDownloading true)) Hd). }
  split; [exact Hflag|]. split; [|exact Hend].
  unfold download_disabled. rewrite Hflag. reflexivity.
Qed.

Lemma button_is_disabled_during_the_attempt_witness :
  let ui := mkUI video false 0 [] [] [] in
  let fetched := streaming (delivered [bytes "a.webm|3" ++ [x0a] ++ bytes "abc"]) in
  let done := reset_events ++ [SetFileName (lit "a.webm")] in
  let todo := [SetProgress (percentage 3 3);
               SaveFile (lit "a.mp4") (bytes "abc");
               SetIsDownloading false] in
  handleDownload video fetched = done ++ todo
  /\ isDownloading (apply_events ui done) = true
  /\ download_disabled (fun _ => Returns tt) (lit "https://example.org/v")
       (apply_events ui done) = true
  /\ isDownloading (attempt ui fetched) = false.
Proof.
  split; [reflexivity|].
  apply (button_is_disabled_during_the_attempt
           (fun _ => Returns tt) (lit "https://example.org/v")
           (mkUI video false 0 [] [] [])
           (streaming (delivered [bytes "a.webm|3" ++ [x0a] ++ bytes "abc"]))
           (reset_events ++ [SetFileName (lit "a.webm")])
           [SetProgress (percentage 3 3);
            SaveFile (lit "a.mp4") (bytes "abc");
            SetIsDownloading false]);
    [reflexivity | discriminate | discriminate].
Defined.

Lemma read_loop_up_to_the_throw (values : list (list byte)) (m : jsstring)
      (reads : list read_result) :
  forall s,
    fst (read_loop s (delivered values ++ ReadThrows m :: reads))
    = fst (read_loop s (delivered values)).
Proof.
  induction values as [|v values IH]; intro s; simpl; [reflexivity|].
  destruct (on_chunk s v) as [s' evs]. specialize (IH s').
  destruct (read_loop s' (delivered values ++ ReadThrows m :: reads)).
  destruct (read_loop s' (delivered values)). simpl in *.
  rewrite IH. reflexivity.
Qed.

(** X12 (a read that throws).  When a read throws after some chunks, the
    attempt reports exactly what the loop reports for those chunks, then
    sets the thrown message as the error and ends; what the stream would
    have delivered after the failing read plays no part. *)
Theorem failing_read_ends_the_attempt
        (dt : DownloadType) (values : list (list byte)) (m : jsstring)
        (reads : list read_result) :
  handleDownload dt (streaming (delivered values ++ ReadThrows m :: reads))
  = reset_events
    ++ fst (read_loop initial_session (delivered values))
    ++ [SetError m; SetIsDownloading false].
Proof.
  unfold handleDownload. rewrite try_block_streaming.
  pose proof (read_loop_throws values m reads initial_session) as Hthrow.
  pose proof (read_loop_up_to_the_throw values m reads initial_session) as Hevs.
  destruct (read_loop initial_session
              (delivered values ++ ReadThrows m :: reads)) as [evs r].
  simpl in *. subst r evs. reflexivity.
Qed.

(** X13 (the pattern of the output name, for every name).  Either the name
    is [base.ext] with [ext] one or more characters other than dot and
    slash, and the saved file is called [base] plus the extension of the
    mode ([base] may itself hold dots: only the last suffix goes); or the
    name does not end in such a suffix, and the extension of the mode is
    appended to the whole name. *)
Theorem output_name_for_every_name (dt : DownloadType) (name : jsstring) :
  (exists base ext,
     name = base ++ DOT :: ext
     /\ extension_chars ext = true
     /\ download_name dt name = base ++ fileExtension dt)
  \/ ((forall base ext, name = base ++ DOT :: ext -> extension_chars ext = false)
      /\ download_name dt name = name ++ fileExtension dt).
Proof.
  unfold download_name.
  induction name as [|c name IH].
  - right. split; [|reflexivity].
    intros base ext H. destruct base; discriminate H.
  - simpl. destruct (N.eqb_spec c DOT) as [-> | Hc]; simpl.
    + destruct (extension_chars name) eqn:Hext.
      * left. exists [], name. repeat split. exact Hext.
      * destruct IH as [[base [ext [Hname [Hx Hs]]]] | [Hnone Hs]].
        -- left. exists (DOT :: base), ext. subst name.
           repeat split; [exact Hx|].
           apply app_inv_tail in Hs. simpl. rewrite Hs. reflexivity.
        -- right. apply app_inv_tail in Hs. rewrite Hs.
           split; [|reflexivity].
           intros base ext H. destruct base as [|b base].
           ++ simpl in H. injection H as <-. exact Hext.
           ++ simpl in H. injection H as _ H. apply (Hnone base ext H).
    + destruct IH as [[base [ext [Hname [Hx Hs]]]] | [Hnone Hs]].
      * left. exists (c :: base), ext. subst name.
        repeat split; [exact Hx|].
        apply app_inv_tail in Hs. simpl. rewrite Hs. reflexivity.
      * right. apply app_inv_tail in Hs. rewrite Hs.
        split; [|reflexivity].
        intros base ext H. destruct base as [|b base].
        -- simpl in H. injection H as H _. contradiction.
        -- simpl in H. injection H as _ H. apply (Hnone base ext H).
Qed.

Lemma first_header_chunk (values : list (list byte)) :
  forallb (fun v => negb (has_newline v)) values = true
  \/ exists pre header rest,
       values = pre ++ header :: rest
       /\ forallb (fun v => negb (has_newline v)) pre = true
       /\ has_newline header = true.
Proof.
  induction values as [|v values IH]; [left; reflexivity|].
  destruct (has_newline v) eqn:Hv.
  - right. exists [], v, values. repeat split. exact Hv.
  - destruct IH as [Hall | [pre [header [rest [Heq [Hpre Hh]]]]]].
    + left. simpl. rewrite Hv, Hall. reflexivity.
    + right. exists (v :: pre), header, rest. subst values.
      repeat split; [|exact Hh]. simpl. rewrite Hv, Hpre. reflexivity.
Qed.

(** X14 (streams are never rejected).  Whatever bytes a stream delivers, as
    long as no read throws, the attempt sets no error and saves exactly one
    file, and the content of that file is a tail of the byte stream: bytes
    are only ever dropped from the front. *)
Theorem delivered_stream_saves_a_tail
        (dt : DownloadType) (values : list (list byte)) :
  exists name blob front,
    filter is_save (handleDownload dt (streaming (delivered values)))
    = [SaveFile name blob]
    /\ filter is_error (handleDownload dt (streaming (delivered values)))
       = [SetError []]
    /\ front ++ blob = List.concat values.
Proof.
  destruct (first_header_chunk values)
    as [Hall | [pre [header [rest [Heq [Hpre Hnl]]]]]].
  - exists (lit "download" ++ fileExtension dt), [], (List.concat values).
    assert (Hd : handleDownload dt (streaming (delivered values))
                 = reset_events
                   ++ [SaveFile (lit "download" ++ fileExtension dt) [];
                       SetIsDownloading false]).
    { unfold handleDownload. rewrite try_block_streaming.
      rewrite <- (app_nil_r (delivered values)).
      rewrite read_loop_skip_all by (try reflexivity; exact Hall).
      reflexivity. }
    rewrite Hd. repeat split. apply app_nil_r.
  - subst values.
    destruct (attempt_completes dt pre header rest Hpre Hnl)
      as [evs [Hloop [_ Hd]]].
    assert (Herr : filter is_error evs = []).
    { clear -Hloop. induction evs as [|e evs IH]; [reflexivity|].
      simpl in Hloop. apply andb_prop in Hloop as [He Hevs].
      destruct e; try discriminate He; simpl; apply IH, Hevs. }
    exists (download_name dt (metadata_name header (lit "download"))),
      (new_Blob (u8_slice header (metadata_index header + 1) :: rest)),
      (List.concat pre
       ++ firstn (Z.to_nat (metadata_index header + 1)) header).
    rewrite Hd, !filter_app, (loop_events_save_nothing evs Hloop), Herr.
    split; [reflexivity|]. split; [reflexivity|].
    rewrite concat_app. unfold new_Blob, u8_slice. simpl.
    set (k := Z.to_nat (metadata_index header + 1)).
    rewrite <- !app_assoc.
    rewrite (app_assoc (firstn k header)), firstn_skipn. reflexivity.
Qed.

Lemma metadata_name_not_empty (value : list byte) :
  metadata_name value (lit "download") <> [].
Proof.
  unfold metadata_name, or_else.
  destruct (nth_error (metadata_fields value) 0) as [[|c n]|]; discriminate.
Qed.

(** X15 (what the panel shows once the header line is read).  Right after
    the chunk with the header line has been processed, the progress panel
    is shown with the file name taken from the header line, or [download]
    when the header line gives an empty name - the placeholder text is not
    shown any more - and no alert is shown. *)
Theorem panel_shows_the_name_of_the_header
        (ui : UI) (pre : list (list byte)) (header : list byte)
        (rest : list (list byte)) :
  forallb (fun v => negb (has_newline v)) pre = true ->
  has_newline header = true ->
  exists done todo p,
    handleDownload (downloadType ui)
      (streaming (delivered (pre ++ header :: rest)))
    = done ++ todo
    /\ done = reset_events
              ++ SetFileName (metadata_name header (lit "download"))
                 :: report_progress (with_metadata initial_session header)
    /\ render (apply_events ui done)
       = mkView (Some (p, metadata_name header (lit "download"))) None.
Proof.
  intros Hpre Hnl.
  set (name := metadata_name header (lit "download")).
  set (report := report_progress (with_metadata initial_session header)).
  assert (Hsplit : exists todo,
             handleDownload (downloadType ui)
               (streaming (delivered (pre ++ header :: rest)))
             = (reset_events ++ SetFileName name :: report) ++ todo).
  { unfold handleDownload. rewrite try_block_streaming.
    unfold delivered. rewrite map_app.
    rewrite (read_loop_skip_all pre initial_session _ eq_refl eq_refl Hpre).
    simpl read_loop. rewrite on_chunk_metadata by (try reflexivity; exact Hnl).
    fold name report.
    destruct (read_loop (with_metadata initial_session header)
                (map Chunk rest)) as [evs [m | s]].
    - exists (evs ++ [SetError m; SetIsDownloading false]).
      cbn [catch_events]. rewrite <- !app_assoc. reflexivity.
    - exists (evs ++ [SaveFile (download_name (downloadType ui)
                                  (currentFileName s))
                        (new_Blob (chunks s));
                      SetIsDownloading false]).
      cbn [catch_events]. rewrite <- !app_assoc. reflexivity. }
  destruct Hsplit as [todo Htodo].
  pose proof (metadata_name_not_empty header) as Hname. fold name in Hname.
  assert (Hreport : report = []
                    \/ exists q, report = [SetProgress q]).
  { unfold report, report_progress.
    destruct (truthy (totalLength (with_metadata initial_session header)));
      [|left; reflexivity].
    destruct (totalLength (with_metadata initial_session header)) as [| |t];
      [left | left | right; eexists]; reflexivity. }
  destruct Hreport as [Hr | [q Hr]].
  - exists (reset_events ++ SetFileName name :: report), todo, 0.
    split; [exact Htodo|]. split; [reflexivity|].
    rewrite Hr. unfold render, apply_events. simpl.
    destruct name; [contradiction | reflexivity].
  - exists (reset_events ++ SetFileName name :: report), todo, q.
    split; [exact Htodo|]. split; [reflexivity|].
    rewrite Hr. unfold render, apply_events. simpl.
    destruct name; [contradiction | reflexivity].
Qed.

Lemma panel_shows_the_name_of_the_header_witness :
  let ui := mkUI audio false 0 (lit "old.ogg") (lit "old error") [] in
  let header := bytes "|12" ++ [x0a] ++ bytes "abc" in
  has_newline header = true
  /\ metadata_name header (lit "download") = lit "download"
  /\ exists done todo p,
       handleDownload audio (streaming (delivered ([] ++ header :: [])))
       = done ++ todo
       /\ done = reset_events
                 ++ SetFileName (metadata_name header (lit "download"))
                    :: report_progress (with_metadata initial_session header)
       /\ render (apply_events ui done)
          = mkView (Some (p, metadata_name header (lit "download"))) None.
Proof.
  split; [reflexivity|]. split; [reflexivity|].
  exact (panel_shows_the_name_of_the_header
           (mkUI audio false 0 (lit "old.ogg") (lit "old error") [])
           [] (bytes "|12" ++ [x0a] ++ bytes "abc") [] eq_refl eq_refl).
Defined.

(** * The loop with doubles *)

Module DoubleLoop.
Import Doubles.

Lemma skip_in_doubles (s : Session) (value : list byte) :
  metadataReceived s = false -> has_newline value = false ->
  on_chunk s value = (s, report_progress s).
Proof.
  intros Hm Hnl. unfold on_chunk. rewrite Hm. simpl.
  assert (Hidx : indexOf (TextDecoder.decode value) NL = (-1)%Z).
  { apply indexOf_absent. intro Hin.
    apply DecoderFacts.decode_newline in Hin. congruence. }
  rewrite Hidx. reflexivity.
Qed.

Lemma metadata_in_doubles (s : Session) (value : list byte) :
  metadataReceived s = false -> has_newline value = true ->
  on_chunk s value
  = (with_metadata s value,
     SetFileName (metadata_name value (currentFileName s))
     :: report_progress (with_metadata s value)).
Proof.
  intros Hm Hnl. unfold on_chunk. rewrite Hm. simpl.
  assert (Hidx : Z.eqb (indexOf (TextDecoder.decode value) NL) (-1) = false).
  { apply Z.eqb_neq. intro H. apply indexOf_absent in H. apply H.
    apply DecoderFacts.decode_newline. exact Hnl. }
  rewrite Hidx. reflexivity.
Qed.

Lemma payload_in_doubles (s : Session) (value : list byte) :
  metadataReceived s = true ->
  on_chunk s value = (with_chunk s value, report_progress (with_chunk s value)).
Proof.
  intro Hm. unfold on_chunk, with_chunk. rewrite Hm. reflexivity.
Qed.

(** Whatever the branch, the percentages of a chunk are those of the
    report made at its end. *)
Lemma reports_in_doubles (s : Session) (value : list byte) :
  progress_values (snd (on_chunk s value))
  = progress_values (report_progress (fst (on_chunk s value))).
Proof.
  destruct (metadataReceived s) eqn:Hm.
  - rewrite payload_in_doubles by exact Hm. reflexivity.
  - destruct (has_newline value) eqn:Hnl.
    + rewrite metadata_in_doubles by assumption. reflexivity.
    + rewrite skip_in_doubles by assumption. reflexivity.
Qed.

(** C2 (progress value), amended.  After every chunk, when the total length
    read from the header is a Number other than zero and [NaN], exactly one
    value is passed to [setProgress]: the double obtained by dividing the
    counter, as it is after this chunk, by the total and multiplying the
    rounded quotient by 100.  Nothing clamps it to the range 0..100, and it
    is the result of two roundings, not the real number 100 r / t. *)
Theorem progress_is_the_unclamped_double
        (s : Session) (value : list byte) (t : PrimFloat.float) :
  totalLength (fst (on_chunk s value)) = Some t ->
  truthy (Some t) = true ->
  progress_values (snd (on_chunk s value))
  = [PrimFloat.mul
       (PrimFloat.div (receivedLength (fst (on_chunk s value))) t)
       hundred].
Proof.
  intros Ht Htruthy. rewrite reports_in_doubles.
  unfold report_progress. rewrite Ht, Htruthy. reflexivity.
Qed.

(** The header announces ten bytes and eleven arrive: the value reported is
    above 110, the double next to it. *)
Lemma progress_is_the_unclamped_double_witness :
  let value := bytes "f|10" ++ [x0a] ++ bytes "0123456789A" in
  totalLength (fst (on_chunk initial_session value)) = Some (number_of 10)
  /\ truthy (Some (number_of 10)) = true
  /\ progress_values (snd (on_chunk initial_session value))
     = [PrimFloat.mul (PrimFloat.div (number_of 11) (number_of 10)) hundred]
  /\ PrimFloat.ltb (number_of 110)
       (PrimFloat.mul (PrimFloat.div (number_of 11) (number_of 10)) hundred)
     = true
  /\ PrimFloat.next_up (number_of 110)
     = PrimFloat.mul (PrimFloat.div (number_of 11) (number_of 10)) hundred.
Proof.
  split; [reflexivity|]. split; [reflexivity|].
  split; [|split; reflexivity].
  exact (progress_is_the_unclamped_double initial_session
           (bytes "f|10" ++ [x0a] ++ bytes "0123456789A") (number_of 10)
           eq_refl eq_refl).
Defined.

(** Sizes that no double holds: the nearest double is taken, and beyond the
    range the total is infinite and every percentage is zero. *)
Example sizes_are_rounded :
  parseInt (lit "9007199254740993") = number_of 9007199254740992
  /\ parseInt (lit "-0") = PrimFloat.neg_zero
  /\ parseInt (lit "abc") = PrimFloat.nan
  /\ number_of (10 ^ 309) = PrimFloat.infinity
  /\ percentage (number_of 300) (number_of (10 ^ 309)) = PrimFloat.zero
  /\ PrimFloat.ltb (percentage (number_of 57) (number_of 100)) (number_of 57)
     = true.
Proof. repeat split. Qed.

Lemma skip_all_in_doubles (pre : list (list byte)) (s : Session)
      (reads : list read_result) :
  metadataReceived s = false -> truthy (totalLength s) = false ->
  forallb (fun v => negb (has_newline v)) pre = true ->
  read_loop s (delivered pre ++ reads) = read_loop s reads.
Proof.
  intros Hm Ht. induction pre as [|v pre IH]; intro Hpre; [reflexivity|].
  simpl in Hpre. apply andb_prop in Hpre as [Hv Hpre].
  apply negb_true_iff in Hv. simpl.
  rewrite skip_in_doubles by assumption.
  unfold report_progress. rewrite Ht. simpl.
  rewrite (IH Hpre). destruct (read_loop s reads). reflexivity.
Qed.

(** After the metadata, with a truthy total, one percentage per chunk,
    computed from the counter as it runs. *)
Lemma doubles_after_metadata (values : list (list byte))
      (t : PrimFloat.float) :
  truthy (Some t) = true ->
  forall s, metadataReceived s = true -> totalLength s = Some t ->
  fst (read_loop s (delivered values))
  = map (fun r => SetProgress (percentage r t))
      (running (receivedLength s) values).
Proof.
  intro Htruthy. induction values as [|v values IH]; intros s Hm Ht;
    [reflexivity|].
  simpl. rewrite payload_in_doubles by exact Hm.
  specialize (IH (with_chunk s v) Hm Ht).
  destruct (read_loop (with_chunk s v) (delivered values)) as [evs r].
  cbn [fst snd] in *. rewrite IH. unfold report_progress.
  change (totalLength (with_chunk s v)) with (totalLength s).
  rewrite Ht, Htruthy. reflexivity.
Qed.

Lemma progress_values_of_map (t : PrimFloat.float)
      (rs : list PrimFloat.float) :
  progress_values (map (fun r => SetProgress (percentage r t)) rs)
  = map (fun r => percentage r t) rs.
Proof. induction rs as [|r rs IH]; simpl; [|rewrite IH]; reflexivity. Qed.

(** X7 (the percentages of an attempt).  With a header line of 7-bit
    characters whose size field is a Number other than zero and [NaN], the
    loop passes to [setProgress], chunk by chunk from the header chunk on,
    the double [(receivedLength / totalLength) * 100], where
    [receivedLength] is the sum, in doubles, of the payload bytes received
    so far and [totalLength] the double parsed from the size field; chunks
    that arrive before the header line report nothing. *)
Theorem progress_follows_the_payload_received
        (pre : list (list byte)) (header : list byte)
        (rest : list (list byte)) :
  forallb (fun v => negb (has_newline v)) pre = true ->
  has_newline header = true ->
  ascii_only (before_terminator header) = true ->
  truthy (Some (metadata_size header)) = true ->
  progress_values
    (fst (read_loop initial_session (delivered (pre ++ header :: rest))))
  = map (fun r => PrimFloat.mul (PrimFloat.div r (metadata_size header)) hundred)
      (running PrimFloat.zero (after_terminator header :: rest)).
Proof.
  intros Hpre Hnl Hascii Htruthy.
  unfold delivered. rewrite map_app.
  rewrite (skip_all_in_doubles pre initial_session _ eq_refl eq_refl Hpre).
  simpl read_loop. rewrite metadata_in_doubles by (try reflexivity; exact Hnl).
  pose proof (doubles_after_metadata rest (metadata_size header) Htruthy
                (with_metadata initial_session header) eq_refl eq_refl)
    as Hrest.
  unfold delivered in Hrest.
  destruct (read_loop (with_metadata initial_session header) (map Chunk rest))
    as [evs r]. simpl in Hrest. subst evs.
  destruct (AsciiHeader.metadata_of_chunk header Hnl Hascii)
    as [_ [_ [_ Hlen]]].
  unfold report_progress. simpl totalLength. rewrite Htruthy.
  cbn [fst app progress_values].
  rewrite progress_values_of_map.
  unfold with_metadata. simpl receivedLength. rewrite Hlen. reflexivity.
Qed.

Lemma progress_follows_the_payload_received_witness :
  let header := bytes "a.webm|100" ++ [x0a] ++ bytes "0123" in
  let rest := [repeat x00 53; bytes "456"] in
  truthy (Some (metadata_size header)) = true
  /\ progress_values
       (fst (read_loop initial_session
               (delivered ([bytes "junk"] ++ header :: rest))))
     = [percentage (number_of 4) (number_of 100);
        percentage (number_of 57) (number_of 100);
        percentage (number_of 60) (number_of 100)]
  /\ PrimFloat.ltb (percentage (number_of 57) (number_of 100)) (number_of 57)
     = true.
Proof.
  split; [reflexivity|]. split; [|reflexivity].
  exact (progress_follows_the_payload_received [bytes "junk"]
           (bytes "a.webm|100" ++ [x0a] ++ bytes "0123")
           [repeat x00 53; bytes "456"]
           eq_refl eq_refl eq_refl eq_refl).
Defined.

Lemma digit_start_in_doubles (d : N) (tl : jsstring) :
  is_digit d = true ->
  parseInt (d :: tl)
  = match digits_prefix (d :: tl) with
    | [] => PrimFloat.nan
    | ds => if Z.eqb (digits_value ds) 0 then PrimFloat.zero
            else number_of (digits_value ds)
    end.
Proof.
  intro Hd. destruct (digit_is_plain d Hd) as [Hw [Hminus [Hplus _]]].
  unfold parseInt. cbn [trim_start]. rewrite Hw. rewrite Hminus, Hplus.
  reflexivity.
Qed.

(** [parseInt] reads the leading digits, ignores what follows them, and
    returns the double nearest to their value. *)
Lemma leading_digits_in_doubles (ds rest : jsstring) :
  ds <> [] -> forallb is_digit ds = true ->
  match rest with [] => true | c :: _ => negb (is_digit c) end = true ->
  parseInt (ds ++ rest) = number_of (digits_value ds).
Proof.
  intros Hne Hds Hrest.
  destruct ds as [|d ds]; [contradiction|].
  pose proof (digits_prefix_app (d :: ds) rest Hds Hrest) as Hp.
  simpl in Hds. apply andb_prop in Hds as [Hd _].
  change ((d :: ds) ++ rest) with (d :: (ds ++ rest)) in *.
  rewrite (digit_start_in_doubles d (ds ++ rest) Hd), Hp.
  cbv zeta.
  destruct (Z.eqb_spec (digits_value (d :: ds)) 0) as [Hzero | _];
    [rewrite Hzero|]; reflexivity.
Qed.

(** X4 (a well-formed header line).  Let the first chunk with a terminator
    be [name|digits], possibly followed by further characters that do not go
    on with a digit, then the terminator, then payload bytes, the line being
    7-bit text.  Then the session takes [name] as the file name (the name
    it had when [name] is empty), the double nearest to the decimal value
    of [digits] as the total length - an infinity when that value is beyond
    the doubles -, the payload bytes as the only new buffered chunk, and
    adds their number to the counter. *)
Theorem well_formed_header_is_read
        (s : Session) (name digits junk payload : list byte) :
  metadataReceived s = false ->
  ascii_only name = true -> no_pipe name = true -> has_newline name = false ->
  digits <> [] -> digit_bytes digits = true ->
  ascii_only junk = true -> has_newline junk = false ->
  ends_number junk = true ->
  fst (on_chunk s (name ++ x7c :: digits ++ junk ++ x0a :: payload))
  = mkSession (chunks s ++ [payload])
      (PrimFloat.add (receivedLength s)
         (number_of (Z.of_nat (List.length payload))))
      (Some (number_of (digits_value (map Byte.to_N digits))))
      true
      (match name with
       | [] => currentFileName s
       | _ => map Byte.to_N name
       end).
Proof.
  intros Hm Hname Hpipe Hnamenl Hne Hdigits Hjunk Hjunknl Hend.
  destruct (digit_bytes_plain digits Hdigits) as [Hd1 [Hd2 [Hd3 Hd4]]].
  set (line := name ++ x7c :: digits ++ junk).
  assert (Hline : has_newline line = false).
  { unfold line, has_newline in *.
    rewrite existsb_app. simpl. rewrite existsb_app.
    rewrite Hnamenl, Hd2, Hjunknl. reflexivity. }
  assert (Hascii : ascii_only line = true).
  { unfold line, ascii_only in *.
    rewrite forallb_app. simpl. rewrite forallb_app.
    rewrite Hname, Hd1, Hjunk. reflexivity. }
  assert (Hvalue : name ++ x7c :: digits ++ junk ++ x0a :: payload
                   = line ++ x0a :: payload).
  { unfold line. rewrite <- !app_assoc. simpl. rewrite <- app_assoc.
    reflexivity. }
  rewrite Hvalue.
  destruct (terminator_after_line line payload x0a eq_refl Hline)
    as [Hnl [Hbefore Hafter]].
  rewrite metadata_in_doubles by assumption. cbn [fst].
  rewrite <- Hbefore in Hascii.
  destruct (AsciiHeader.metadata_of_chunk _ Hnl Hascii)
    as [_ [Hslice [Hcut Hlen]]].
  rewrite Hbefore in Hslice. rewrite Hafter in Hcut, Hlen.
  assert (Hfields : metadata_fields (line ++ x0a :: payload)
                    = map Byte.to_N name
                      :: split PIPE (map Byte.to_N digits
                                     ++ map Byte.to_N junk)).
  { unfold metadata_fields. rewrite Hslice. unfold line.
    rewrite map_app. simpl. rewrite map_app.
    apply split_head, no_pipe_units, Hpipe. }
  assert (Hsize : nth_error (metadata_fields (line ++ x0a :: payload)) 1
                  = Some (map Byte.to_N digits
                          ++ first_field PIPE (map Byte.to_N junk))).
  { rewrite Hfields.
    change (nth_error
              (split PIPE (map Byte.to_N digits ++ map Byte.to_N junk)) 0
            = Some (map Byte.to_N digits
                    ++ first_field PIPE (map Byte.to_N junk))).
    rewrite split_first, first_field_app by exact Hd4. reflexivity. }
  unfold with_metadata, metadata_size, metadata_name.
  rewrite Hsize, Hfields, Hcut, Hlen.
  unfold ToString.
  rewrite leading_digits_in_doubles;
    [ | destruct digits; [contradiction | discriminate]
      | exact Hd3 | apply first_field_start, Hend ].
  f_equal. destruct name; reflexivity.
Qed.

(** A size one above 2^53: the total is 2^53. *)
Lemma well_formed_header_is_read_witness :
  fst (on_chunk initial_session
         (bytes "movie.webm" ++ x7c :: bytes "9007199254740993"
          ++ bytes " bytes" ++ x0a :: bytes "payload"))
  = mkSession [bytes "payload"] (number_of 7)
      (Some (number_of 9007199254740992)) true (lit "movie.webm").
Proof.
  apply (well_formed_header_is_read initial_session (bytes "movie.webm")
           (bytes "9007199254740993") (bytes " bytes") (bytes "payload"));
    try reflexivity; discriminate.
Defined.

End DoubleLoop.

(** * The two embeddings side by side *)

Lemma on_chunk_same_buffer (s : Session) (d : Doubles.Session)
      (value : list byte) :
  same_buffer s d ->
  same_buffer (fst (on_chunk s value)) (fst (Doubles.on_chunk d value)).
Proof.
  intros [Hc [Hm Hn]]. destruct (metadataReceived s) eqn:Hs;
    symmetry in Hm.
  - rewrite on_chunk_payload, DoubleLoop.payload_in_doubles by assumption.
    unfold same_buffer. simpl. rewrite Hc, Hs, Hm, Hn. auto.
  - destruct (has_newline value) eqn:Hnl.
    + rewrite on_chunk_metadata, DoubleLoop.metadata_in_doubles by assumption.
      unfold same_buffer. simpl. rewrite Hc, Hn. auto.
    + rewrite on_chunk_skip, DoubleLoop.skip_in_doubles by assumption.
      unfold same_buffer. simpl. rewrite Hs, Hm. auto.
Qed.

(** The two embeddings go through the same branches: after the same reads
    they hold the same buffer, flag and file name, or have stopped on the
    same thrown message. *)
Lemma buffers_agree (reads : list read_result) :
  forall s d, same_buffer s d ->
  match snd (read_loop s reads), snd (Doubles.read_loop d reads) with
  | Returns s', Returns d' => same_buffer s' d'
  | Throws m, Throws m' => m = m'
  | _, _ => False
  end.
Proof.
  induction reads as [|[v | m] reads IH]; intros s d H; simpl;
    [exact H | | reflexivity].
  pose proof (on_chunk_same_buffer s d v H) as Hstep.
  destruct (on_chunk s v) as [s1 evs].
  destruct (Doubles.on_chunk d v) as [d1 devs]. simpl in Hstep.
  specialize (IH s1 d1 Hstep).
  destruct (read_loop s1 reads) as [evs' r].
  destruct (Doubles.read_loop d1 reads) as [devs' dr]. exact IH.
Qed.

(** * Claims amended after a counterexample *)

(** C4, as stated, fails when the text of the error response cannot be
    read: for status 500 and [response.text()] rejecting with [boom], the
    error message is [boom] and does not hold the status code. *)
Lemma unreadable_error_body_hides_the_status :
  ~ status_and_body_reported (mkUI video false 0 [] [] [])
      (mkResponse 500 (Throws (lit "boom")) None).
Proof.
  intro H. destruct (H eq_refl) as [[before [after Hc]] _].
  vm_compute in Hc.
  destruct before as [|b1 [|b2 [|b3 [|b4 [|b5 before]]]]]; discriminate Hc.
Qed.

(** C6, as stated, fails for a name that ends in a dot: [song.] has one
    dot, the name with its last suffix removed is [song], but the file is
    saved as [song..mp3]. *)
Lemma trailing_dot_is_kept :
  (dot_count (lit "song.") <= 1)%nat
  /\ download_name audio (lit "song.")
     <> remove_last_suffix (lit "song.") ++ lit ".mp3".
Proof. split; [apply le_n | vm_compute; discriminate]. Qed.

Lemma last_suffix_none (name : jsstring) :
  last_suffix name = None -> no_dot name = true.
Proof.
  induction name as [|c name IH]; simpl; [reflexivity|].
  destruct (last_suffix name); [discriminate|].
  destruct (N.eqb c DOT); [discriminate|].
  intros _. rewrite IH; reflexivity.
Qed.

Lemma last_suffix_some (name ext : jsstring) :
  last_suffix name = Some ext ->
  no_dot ext = true /\ name = remove_last_suffix name ++ DOT :: ext.
Proof.
  revert ext. induction name as [|c name IH]; intros ext; simpl;
    [discriminate|].
  destruct (last_suffix name) as [e|] eqn:Hlast.
  - intro H. injection H as <-. destruct (IH e eq_refl) as [He Hname].
    split; [exact He|].
    assert (Hdot : no_dot name = false).
    { rewrite Hname. unfold no_dot. rewrite forallb_app. simpl.
      apply andb_false_r. }
    rewrite Hdot, andb_false_r. simpl. f_equal. exact Hname.
  - destruct (N.eqb_spec c DOT) as [-> | Hc]; [|discriminate].
    intro H. injection H as <-.
    rewrite (last_suffix_none name Hlast). split; reflexivity.
Qed.

Lemma strip_extension_no_match (base ext : jsstring) :
  no_dot ext = true -> extension_chars ext = false ->
  strip_extension (base ++ DOT :: ext) = base ++ DOT :: ext.
Proof.
  intros Hdot Hext. induction base as [|c base IH]; simpl.
  - rewrite Hext. simpl. rewrite strip_extension_no_dot by exact Hdot.
    reflexivity.
  - rewrite extension_chars_app_dot, andb_false_r. f_equal. exact IH.
Qed.

Lemma extension_ok_chars (ext : jsstring) :
  no_dot ext = true -> extension_chars ext = extension_ok ext.
Proof.
  intro Hdot. unfold extension_chars, extension_ok.
  destruct ext as [|c ext]; [reflexivity|].
  revert Hdot. generalize (c :: ext). clear.
  intros l Hdot. induction l as [|x l IH]; [reflexivity|].
  simpl in *. apply andb_prop in Hdot as [Hx Hl].
  unfold not_slash_dot at 1. rewrite Hx, andb_true_r, (IH Hl). reflexivity.
Qed.

(** C6 (extension correctness), amended.  For every working file name and
    every mode: when the name ends in a dot followed by one or more
    characters none of which is a dot or a slash, the output name is the
    name with that last suffix removed, and in every other case (no dot,
    nothing after the last dot, a slash after the last dot) it is the whole
    name; [.mp3] follows in audio mode and [.mp4] in video mode. *)
Theorem output_name_is_the_expected_name (dt : DownloadType) (name : jsstring) :
  download_name dt name = expected_name dt name.
Proof.
  unfold download_name, expected_name.
  assert (Hext : fileExtension dt
                 = match dt with audio => lit ".mp3" | video => lit ".mp4" end)
    by (destruct dt; reflexivity).
  rewrite Hext. f_equal.
  destruct (last_suffix name) as [ext|] eqn:Hlast.
  - destruct (last_suffix_some name ext Hlast) as [Hdot Hname].
    rewrite <- (extension_ok_chars ext Hdot).
    set (base := remove_last_suffix name) in *.
    destruct (extension_chars ext) eqn:Hchars; rewrite Hname.
    + apply strip_extension_last, Hchars.
    + apply strip_extension_no_match; assumption.
  - apply strip_extension_no_dot, last_suffix_none, Hlast.
Qed.

Example expected_names :
  expected_name audio (lit "song.ogg") = lit "song.mp3"
  /\ expected_name audio (lit "song.") = lit "song..mp3"
  /\ expected_name video (lit "a.b/c") = lit "a.b/c.mp4"
  /\ expected_name video (lit "archive.tar.gz") = lit "archive.tar.mp4"
  /\ expected_name video (lit "download") = lit "download.mp4".
Proof. repeat split. Qed.
